(** * Gemini provider adapter, retry wrapper and .clineignore controller

  A shallow embedding of
    - src/api/providers/gemini.ts          (class GeminiHandler)
    - src/core/ignore/ClineIgnoreController.ts (class ClineIgnoreController)
  together with the protocol vocabulary they talk in.

  Async generators are embedded as the list of values they yield followed
  by the way they finish (normal return or thrown exception), written in a
  small generator monad whose operations are [yield], [throw], [await] and
  [tryCatch].  What a consumer that stops early observes is a prefix of
  that list.  Writes to the console are not part of the embedding. *)

From stdpp Require Import base option list strings gmap.
From Stdlib Require Import ZArith Lia Ascii.

Local Open Scope Z_scope.

(** ** JavaScript values the code manipulates *)

Module Js.

(** A thrown value.  [new Error(msg)] is [mkError msg None]; errors raised
    by the HTTP layer may carry a numeric [status]. *)
Record JsError : Type := mkError {
  message : string;
  status : option Z
}.

#[export] Instance JsError_eq_dec : EqDecision JsError.
Proof. solve_decision. Defined.

(** [new Error(msg)] *)
Definition newError (msg : string) : JsError := mkError msg None.

(** Truthiness of a [string | undefined]: only a non-empty string is
    truthy. *)
Definition truthy (s : option string) : bool :=
  match s with
  | Some t => negb (bool_decide (t = EmptyString))
  | None => false
  end.

(** [a ?? d] *)
Definition nullish {A : Type} (a : option A) (d : A) : A :=
  match a with Some x => x | None => d end.

(** The property names every ordinary object inherits from
    [Object.prototype]. *)
Definition objectPrototypeKeys : list string :=
  [ "constructor"; "toString"; "toLocaleString"; "valueOf";
    "hasOwnProperty"; "isPrototypeOf"; "propertyIsEnumerable";
    "__proto__"; "__defineGetter__"; "__defineSetter__";
    "__lookupGetter__"; "__lookupSetter__" ]%string.

(** The result of reading [obj[k]] on an ordinary object whose own
    properties are the table [obj]. *)
Inductive Prop_ (A : Type) : Type :=
| Own (a : A)
| Inherited (name : string)
| Undefined.
Arguments Own {A} a.
Arguments Inherited {A} name.
Arguments Undefined {A}.

(** [k in obj]: the HasProperty operation, which walks the prototype
    chain after the own properties. *)
Definition has_property {A : Type} (k : string) (obj : gmap string A) : bool :=
  bool_decide (is_Some (obj !! k)) || bool_decide (k ∈ objectPrototypeKeys).

(** [obj[k]] *)
Definition get {A : Type} (obj : gmap string A) (k : string) : Prop_ A :=
  match obj !! k with
  | Some a => Own a
  | None => if bool_decide (k ∈ objectPrototypeKeys) then Inherited k else Undefined
  end.

End Js.

(** ** The canonical stream protocol and the generator monad *)

Module Stream.
Import Js.

(** What [createMessage] yields: [{type:"text", text}] and
    [{type:"usage", inputTokens, outputTokens}]. *)
Inductive ApiStreamChunk : Type :=
| ApiStreamTextChunk (text : string)
| ApiStreamUsageChunk (inputTokens outputTokens : Z).

(** The events a caller observes: the yielded chunks, and the exception
    that ends a failed stream as its terminal [Error]. *)
Inductive StreamEvent : Type :=
| TextChunk (text : string)
| Usage (inputTokens outputTokens : Z)
| Error (e : JsError).

#[export] Instance StreamEvent_eq_dec : EqDecision StreamEvent.
Proof. solve_decision. Defined.

Definition toEvent (c : ApiStreamChunk) : StreamEvent :=
  match c with
  | ApiStreamTextChunk t => TextChunk t
  | ApiStreamUsageChunk i o => Usage i o
  end.

Definition isUsage (ev : StreamEvent) : bool :=
  match ev with Usage _ _ => true | _ => false end.
Definition isError (ev : StreamEvent) : bool :=
  match ev with Error _ => true | _ => false end.
Definition isText (ev : StreamEvent) : bool :=
  match ev with TextChunk _ => true | _ => false end.
Definition isTerminal (ev : StreamEvent) : bool := isUsage ev || isError ev.

(** A run of an [async function*]: the chunks yielded so far and either
    the thrown exception or the returned value. *)
Definition Gen (A : Type) : Type := list ApiStreamChunk * (JsError + A).

Definition ret {A : Type} (a : A) : Gen A := ([], inr a).
Definition throw {A : Type} (e : JsError) : Gen A := ([], inl e).
Definition yield (c : ApiStreamChunk) : Gen unit := ([c], inr tt).
(** [await p] for a promise that rejects with [e] or resolves to [a]. *)
Definition await {A : Type} (p : JsError + A) : Gen A := ([], p).

Definition bind {A B : Type} (m : Gen A) (k : A → Gen B) : Gen B :=
  match m with
  | (ys, inl e) => (ys, inl e)
  | (ys, inr a) => let '(zs, r) := k a in (ys ++ zs, r)
  end.

(** [try { m } catch (error) { h error }] *)
Definition tryCatch {A : Type} (m : Gen A) (h : JsError → Gen A) : Gen A :=
  match m with
  | (ys, inl e) => let '(zs, r) := h e in (ys ++ zs, r)
  | (ys, inr a) => (ys, inr a)
  end.

#[export] Instance Gen_ret : MRet Gen := @ret.
#[export] Instance Gen_bind : MBind Gen := fun A B k m => bind m k.

Definition yielded {A : Type} (g : Gen A) : list ApiStreamChunk := g.1.
Definition outcome {A : Type} (g : Gen A) : JsError + A := g.2.

(** The event sequence of a run that is consumed to its end. *)
Definition events {A : Type} (g : Gen A) : list StreamEvent :=
  (toEvent <$> yielded g) ++
  match outcome g with
  | inl e => [Error e]
  | inr _ => []
  end.

End Stream.

(** ** src/api/providers/gemini.ts *)

Module Gemini.
Import Js Stream.

(** The two fields of [ApiHandlerOptions] the handler reads. *)
Record ApiHandlerOptions : Type := {
  geminiApiKey : option string;
  apiModelId : option string
}.

(** Modelled from the spec: [ModelInfo] is declared in shared/api, which is
    not among the sources; its fields follow the spec's ModelDescriptor
    (context-window size, max-output-tokens, supports-images flag, optional
    cost in cost units).  The identifier is the catalog key. *)
Record ModelInfo : Type := {
  maxTokens : option Z;
  contextWindow : Z;
  supportsImages : bool;
  cost : option Z
}.

(** The SDK client: [new GoogleGenerativeAI(apiKey)] only stores the key. *)
Record GoogleGenerativeAI : Type := { apiKey : string }.

Record GeminiHandler : Type := {
  options : ApiHandlerOptions;
  client : GoogleGenerativeAI
}.

(** [constructor(options)]: throws when [!options.geminiApiKey]. *)
Definition constructor (options : ApiHandlerOptions) : JsError + GeminiHandler :=
  if negb (truthy (geminiApiKey options))
  then inl (newError "API key is required for Google Gemini")
  else inr {| options := options;
              client := {| apiKey := nullish (geminiApiKey options) EmptyString |} |}.

(** [{ id, info }] as returned by [getModel]. *)
Record Model : Type := {
  id : string;
  info : Js.Prop_ ModelInfo
}.

(** [info.maxTokens]: reading a property of [undefined] is a TypeError; an
    inherited member of [Object.prototype] has no such property. *)
Definition infoMaxTokens (i : Js.Prop_ ModelInfo) : JsError + option Z :=
  match i with
  | Own d => inr (maxTokens d)
  | Inherited _ => inr None
  | Undefined =>
      inl (newError "Cannot read properties of undefined (reading 'maxTokens')")
  end.

(** The wire request. *)
Record ModelParams : Type := {
  model : string;
  systemInstruction : string
}.

Record GenerationConfig : Type := {
  maxOutputTokens : option Z;
  temperature : Z
}.

Record GenerateContentRequest (Content : Type) : Type := {
  contents : list Content;
  generationConfig : GenerationConfig
}.
Arguments contents {Content} _.
Arguments generationConfig {Content} _.

(** The wire response. *)
Record Candidate : Type := { finishReason : option string }.

Record UsageMetadata : Type := {
  promptTokenCount : option Z;
  candidatesTokenCount : option Z
}.

Record GenerateContentResponse : Type := {
  candidates : option (list Candidate);
  usageMetadata : option UsageMetadata
}.

(** One element of [result.stream]; [chunkText] is what [chunk.text()] does:
    it throws, or returns the fragment's text. *)
Record Chunk : Type := { chunkText : JsError + option string }.

(** What [generateContentStream] resolves to: the fragments the iterator
    delivers, the fault with which the iteration ends if the connection
    breaks, and the [response] promise. *)
Record GenerateContentStreamResult : Type := {
  stream : list Chunk;
  streamFault : option JsError;
  response : JsError + option GenerateContentResponse
}.

Section Handler.

(** The catalog and its default identifier, imported from shared/api. *)
Variable geminiModels : gmap string ModelInfo.
Variable geminiDefaultModelId : string.
(** Imported from transform/gemini-format. *)
Variable unescapeGeminiContent : string → string.
Variables MessageParam Content : Type.
Variable convertAnthropicMessageToGemini : MessageParam → Content.
(** The backend behind the SDK client. *)
Variable generateContentStream :
  GoogleGenerativeAI → ModelParams → GenerateContentRequest Content →
  JsError + GenerateContentStreamResult.

(** [getModel()] *)
Definition getModel (this : GeminiHandler) : Model :=
  let modelId := apiModelId (options this) in
  match modelId with
  | Some m =>
      if truthy modelId && has_property m geminiModels
      then {| id := m; info := get geminiModels m |}
      else {| id := geminiDefaultModelId;
              info := get geminiModels geminiDefaultModelId |}
  | None => {| id := geminiDefaultModelId;
               info := get geminiModels geminiDefaultModelId |}
  end.

(** The call [await model.generateContentStream({...})] with its arguments:
    building the request reads [getModel().info.maxTokens]. *)
Definition openStream (this : GeminiHandler) (systemPrompt : string)
    (messages : list MessageParam) : JsError + GenerateContentStreamResult :=
  let model := {| model := id (getModel this); systemInstruction := systemPrompt |} in
  match infoMaxTokens (info (getModel this)) with
  | inl e => inl e
  | inr maxT =>
      generateContentStream (client this) model
        {| contents := convertAnthropicMessageToGemini <$> messages;
           generationConfig := {| maxOutputTokens := maxT; temperature := 0 |} |}
  end.

(** The body of the [for await] loop, with its own try/catch.  The handler
    sets [hasError] and rethrows, so the assignment is never observed. *)
Definition processChunk (chunk : Chunk) (hasError : bool) : Gen bool :=
  tryCatch
    (text ← await (chunkText chunk);
     if truthy text
     then yield (ApiStreamTextChunk (unescapeGeminiContent (nullish text EmptyString)));;
          mret hasError
     else mret hasError)
    (λ error, let hasError := true in throw error).

(** [for await (const chunk of result.stream) { ... }] *)
Fixpoint forAwait (chunks : list Chunk) (fault : option JsError)
    (hasError : bool) : Gen bool :=
  match chunks with
  | [] =>
      match fault with
      | Some e => throw e
      | None => mret hasError
      end
  | chunk :: rest =>
      hasError' ← processChunk chunk hasError;
      forAwait rest fault hasError'
  end.

(** [response.candidates?.[0]?.finishReason] *)
Definition finishReasonOf (response : GenerateContentResponse) : option string :=
  (candidates response ≫= head) ≫= finishReason.

(** The statements after the loop, from [await result.response] on. *)
Definition finishStream (result : GenerateContentStreamResult) : Gen unit :=
  response ← await (response result);
  match response with
  | None => throw (newError "No response received from Gemini API")
  | Some response =>
      let finishReason := finishReasonOf response in
      if bool_decide (finishReason = Some "SAFETY"%string)
      then throw (newError "Content generation was blocked for safety reasons")
      else if bool_decide (finishReason = Some "RECITATION"%string)
      then throw (newError
             "Content generation was blocked due to potential copyright issues")
      else if bool_decide (finishReason = Some "OTHER"%string)
      then throw (newError "Content generation was blocked for other reasons")
      else
        yield (ApiStreamUsageChunk
                 (nullish (usageMetadata response ≫= promptTokenCount) 0)
                 (nullish (usageMetadata response ≫= candidatesTokenCount) 0))
  end.

(** Everything after the stream has been opened: the loop, the check of
    [hasError], and the statements after it. *)
Definition consumeStream (result : GenerateContentStreamResult) : Gen unit :=
  hasError ← forAwait (stream result) (streamFault result) false;
  if hasError : bool
  then throw (newError "Stream processing encountered errors")
  else finishStream result.

(** [async *createMessage(systemPrompt, messages)], without its decorator. *)
Definition createMessage (this : GeminiHandler) (systemPrompt : string)
    (messages : list MessageParam) : Gen unit :=
  tryCatch
    (result ← await (openStream this systemPrompt messages);
     consumeStream result)
    (λ error, throw error).

End Handler.

(** The fragment texts that are neither absent nor empty, in order. *)
Definition presentTexts (texts : list (option string)) : list string :=
  List.filter (λ s, negb (bool_decide (s = EmptyString))) (omap (λ t, t) texts).

(** Every chunk of [chunks] decodes without an exception, to the text at
    the same position of [texts]. *)
Definition decodeTo (chunks : list Chunk) (texts : list (option string)) : Prop :=
  Forall2 (λ c t, chunkText c = inr t) chunks texts.

(** The finish reasons on which [createMessage] throws. *)
Definition blockingReasons : list string := ["SAFETY"; "RECITATION"; "OTHER"]%string.

End Gemini.

(** ** The retry wrapper *)

Module Retry.
Import Js Stream.

(** Modelled from the spec: the decorator [withRetry] is imported from
    api/retry, which is not among the sources.  The definitions of this
    module follow the spec's Retry Wrapper: its error taxonomy, its backoff
    schedule, its attempt budget and its rule that a failure is retried only
    while no event has been forwarded. *)
Inductive ErrorKind : Type :=
| FatalAuth
| FatalBadRequest
| FatalContentPolicy
| RetryableRateLimited
| RetryableServerFault
| RetryableTransport
| ProtocolCorruption.

(** Modelled from the spec: rate limits, server faults and transport
    faults are retryable; everything else is not. *)
Definition retryable (k : ErrorKind) : bool :=
  match k with
  | RetryableRateLimited | RetryableServerFault | RetryableTransport => true
  | _ => false
  end.

Record RetryOptions : Type := {
  maxAttempts : nat;
  baseDelay : Z;
  maxDelay : Z
}.

(** What one outer call did: the events handed to the caller, how many
    times the wrapped call was invoked, and the delays waited in between. *)
Record RetryRun : Type := {
  forwarded : list StreamEvent;
  attempts : nat;
  waits : list Z
}.

Section Wrapper.

(** The classification the adapter supplies. *)
Variable classify : JsError → ErrorKind.
(** The retry-after duration a backend may communicate with a failure. *)
Variable retryAfter : JsError → option Z.
(** The random perturbation drawn for an attempt. *)
Variable jitter : nat → Z.
Variable opts : RetryOptions.

(** Modelled from the spec: an explicit retry-after duration is honoured;
    otherwise the delay is [base * 2^attempt] capped at the maximum, with
    jitter. *)
Definition backoff (attempt : nat) (e : JsError) : Z :=
  match retryAfter e with
  | Some d => d
  | None =>
      Z.min (maxDelay opts) (baseDelay opts * 2 ^ Z.of_nat attempt) + jitter attempt
  end.

(** Modelled from the spec: the wrapper's loop (api/retry is not among the
    sources).  [call n] is the run of the [n]-th invocation of the wrapped
    call and [budget] counts the attempts still allowed.  A run that ends
    normally is passed through.  A failure is retried, after the backoff
    delay, only when it is classified retryable, no event of the run has
    been forwarded, and the budget allows another attempt; any other
    failure is forwarded as the terminal [Error]. *)
Fixpoint retryLoop (call : nat → Gen unit) (budget attempt : nat) : RetryRun :=
  match budget with
  | O => {| forwarded := []; attempts := attempt; waits := [] |}
  | S budget' =>
      let run := call attempt in
      match outcome run with
      | inr _ =>
          {| forwarded := toEvent <$> yielded run;
             attempts := S attempt; waits := [] |}
      | inl e =>
          match yielded run, retryable (classify e), budget' with
          | [], true, S _ =>
              let later := retryLoop call budget' (S attempt) in
              {| forwarded := forwarded later;
                 attempts := attempts later;
                 waits := backoff attempt e :: waits later |}
          | _, _, _ =>
              {| forwarded := (toEvent <$> yielded run) ++ [Error e];
                 attempts := S attempt; waits := [] |}
          end
      end
  end.

(** Modelled from the spec: the wrapper applied to a zero-argument call,
    with the configured attempt budget. *)
Definition withRetry (call : nat → Gen unit) : RetryRun :=
  retryLoop call (maxAttempts opts) 0.

End Wrapper.

End Retry.

(** ** src/core/ignore/ClineIgnoreController.ts *)

Module ClineIgnore.
Import Js.

(** [try { m } catch (error) { h error }] for code that yields nothing. *)
Definition tryCatch {A : Type} (m : JsError + A) (h : JsError → A) : A :=
  match m with
  | inl e => h e
  | inr a => a
  end.

(** The fields of the controller that the access checks read. *)
Record ClineIgnoreController (Ignore : Type) : Type := {
  cwd : string;
  ignoreInstance : Ignore;
  clineIgnoreExists : bool
}.
Arguments cwd {Ignore} _.
Arguments ignoreInstance {Ignore} _.
Arguments clineIgnoreExists {Ignore} _.

(** The objects [filterPaths] maps its input to. *)
Record PathEntry : Type := {
  path : string;
  allowed : bool
}.

Section Controller.

(** The matcher of the ignore library; [ignores] throws for a path that is
    not relative to the working directory. *)
Variable Ignore : Type.
Variable ignore : Ignore.
Variable add : Ignore → string → Ignore.
Variable ignores : Ignore → string → JsError + bool.
(** Node's path module and the repository's [toPosix]. *)
Variable path_resolve : string → string → string.
Variable path_relative : string → string → string.
Variable path_join : string → string → string.
Variable toPosix : string → string.
(** The file system as [loadClineIgnore] sees it. *)
Variable fileExistsAtPath : string → JsError + bool.
Variable readFile : string → JsError + string.

(** [constructor(cwd)] *)
Definition constructor (cwd : string) : ClineIgnoreController Ignore :=
  {| cwd := cwd; ignoreInstance := ignore; clineIgnoreExists := false |}.

(** [loadClineIgnore()]: the fields are assigned one by one, so a failure
    keeps the assignments made before it. *)
Definition loadClineIgnore (this : ClineIgnoreController Ignore)
    : ClineIgnoreController Ignore :=
  let this1 := {| cwd := cwd this; ignoreInstance := ignore;
                  clineIgnoreExists := clineIgnoreExists this |} in
  let ignorePath := path_join (cwd this1) ".clineignore" in
  match fileExistsAtPath ignorePath with
  | inl _ => this1
  | inr true =>
      let this2 := {| cwd := cwd this1; ignoreInstance := ignoreInstance this1;
                      clineIgnoreExists := true |} in
      match readFile ignorePath with
      | inl _ => this2
      | inr content =>
          {| cwd := cwd this2; ignoreInstance := add (ignoreInstance this2) content;
             clineIgnoreExists := clineIgnoreExists this2 |}
      end
  | inr false =>
      {| cwd := cwd this1; ignoreInstance := ignoreInstance this1;
         clineIgnoreExists := false |}
  end.

(** [validateAccess(filePath)] *)
Definition validateAccess (this : ClineIgnoreController Ignore)
    (filePath : string) : bool :=
  if negb (clineIgnoreExists this) then true
  else
    tryCatch
      (let absolutePath := path_resolve (cwd this) filePath in
       let relativePath := toPosix (path_relative (cwd this) absolutePath) in
       match ignores (ignoreInstance this) relativePath with
       | inl e => inl e
       | inr b => inr (negb b)
       end)
      (λ error, true).

(** [filterPaths(paths)] *)
Definition filterPaths (this : ClineIgnoreController Ignore)
    (paths : list string) : list string :=
  tryCatch
    (inr (path <$>
          List.filter (λ x, allowed x)
            ((λ p, {| path := p; allowed := validateAccess this p |}) <$> paths)))
    (λ error, []).

End Controller.

End ClineIgnore.

(** ** Concrete collaborators and scenarios *)

Module Fixtures.
Import Js Stream.

Definition backslash : ascii := ascii_of_nat 92.
Definition doubleQuote : ascii := ascii_of_nat 34.

(** The character an escape letter stands for. *)
Definition unescapeChar (c : ascii) : option ascii :=
  if Ascii.eqb c "n"%char then Some (ascii_of_nat 10)
  else if Ascii.eqb c "r"%char then Some (ascii_of_nat 13)
  else if Ascii.eqb c "t"%char then Some (ascii_of_nat 9)
  else if Ascii.eqb c doubleQuote then Some doubleQuote
  else if Ascii.eqb c "'"%char then Some c
  else None.

(** Modelled from the spec: [unescapeGeminiContent] is imported from
    transform/gemini-format, which is not among the sources.  It reverses
    the double escaping of the streaming format: a backslash followed by an
    escape letter stands for the newline, quote or other control character
    the letter names. *)
Fixpoint unescapeGeminiContent (s : string) : string :=
  match s with
  | EmptyString => EmptyString
  | String a rest =>
      if Ascii.eqb a backslash then
        match rest with
        | EmptyString => String a EmptyString
        | String c rest' =>
            match unescapeChar c with
            | Some r => String r (unescapeGeminiContent rest')
            | None => String a (unescapeGeminiContent rest)
            end
        end
      else String a (unescapeGeminiContent rest)
  end.

Inductive Role : Type := user | assistant.

Record MessageParam : Type := {
  role : Role;
  content : string
}.

Record Content : Type := {
  contentRole : string;
  parts : list string
}.

(** Modelled from the spec: [convertAnthropicMessageToGemini] is imported
    from transform/gemini-format; it maps a role-tagged message to the
    backend's content shape. *)
Definition convertAnthropicMessageToGemini (m : MessageParam) : Content :=
  {| contentRole := match role m with user => "user" | assistant => "model" end;
     parts := [content m] |}.

(** A catalog of two models. *)
Definition flash : Gemini.ModelInfo :=
  {| Gemini.maxTokens := Some 8192; Gemini.contextWindow := 1048576;
     Gemini.supportsImages := true; Gemini.cost := Some 0 |}.

Definition pro : Gemini.ModelInfo :=
  {| Gemini.maxTokens := Some 8192; Gemini.contextWindow := 2097152;
     Gemini.supportsImages := true; Gemini.cost := None |}.

Definition geminiDefaultModelId : string := "gemini-2.0-flash-001".

Definition geminiModels : gmap string Gemini.ModelInfo :=
  <[ "gemini-2.0-flash-001"%string := flash ]>
    (<[ "gemini-1.5-pro-002"%string := pro ]> ∅).

Definition optionsWith (key model : option string) : Gemini.ApiHandlerOptions :=
  {| Gemini.geminiApiKey := key; Gemini.apiModelId := model |}.

Definition handler : Gemini.GeminiHandler :=
  {| Gemini.options := optionsWith (Some "secret"%string) None;
     Gemini.client := {| Gemini.apiKey := "secret" |} |}.

Definition fragment (t : string) : Gemini.Chunk :=
  {| Gemini.chunkText := inr (Some t) |}.

Definition malformed : Gemini.Chunk :=
  {| Gemini.chunkText := inl (newError "Failed to parse stream") |}.

Definition trailer (reason : string) (usage : option Gemini.UsageMetadata)
    : JsError + option Gemini.GenerateContentResponse :=
  inr (Some {| Gemini.candidates := Some [ {| Gemini.finishReason := Some reason |} ];
               Gemini.usageMetadata := usage |}).

(** A backend that answers every request with the same stream. *)
Definition backend (result : Gemini.GenerateContentStreamResult)
    : Gemini.GoogleGenerativeAI → Gemini.ModelParams →
      Gemini.GenerateContentRequest Content →
      JsError + Gemini.GenerateContentStreamResult :=
  λ _ _ _, inr result.

(** Fragments "Hel", "lo!" and a trailer STOP with usage 5 and 2. *)
Definition scenarioA : Gemini.GenerateContentStreamResult :=
  {| Gemini.stream := [fragment "Hel"; fragment "lo!"];
     Gemini.streamFault := None;
     Gemini.response :=
       trailer "STOP" (Some {| Gemini.promptTokenCount := Some 5;
                               Gemini.candidatesTokenCount := Some 2 |}) |}.

(** No text: the one frame of the stream decodes to the empty text, and
    the response carries the given finish reason. *)
Definition finishedWith (reason : string) : Gemini.GenerateContentStreamResult :=
  {| Gemini.stream := [fragment EmptyString]; Gemini.streamFault := None;
     Gemini.response := trailer reason None |}.

(** The frame of a blocked candidate: its [text()] throws. *)
Definition blockedFrame (reason : string) : Gemini.Chunk :=
  {| Gemini.chunkText :=
       inl (newError ("[GoogleGenerativeAI Error]: Candidate was blocked due to "
                      +:+ reason)) |}.

(** A block as the stream delivers it: no text, and the frame that carries
    the finish reason throws when it is decoded. *)
Definition blockedCandidate (reason : string) : Gemini.GenerateContentStreamResult :=
  {| Gemini.stream := [blockedFrame reason]; Gemini.streamFault := None;
     Gemini.response := trailer reason None |}.

(** Scenario A with a trailer that lacks the prompt token count. *)
Definition partialUsage : Gemini.GenerateContentStreamResult :=
  {| Gemini.stream := [fragment "Hel"; fragment "lo!"];
     Gemini.streamFault := None;
     Gemini.response :=
       trailer "STOP" (Some {| Gemini.promptTokenCount := None;
                               Gemini.candidatesTokenCount := Some 2 |}) |}.

(** A malformed chunk between two text fragments. *)
Definition corrupted : Gemini.GenerateContentStreamResult :=
  {| Gemini.stream := [fragment "one"; malformed; fragment "two"];
     Gemini.streamFault := None;
     Gemini.response := trailer "STOP" None |}.

(** One text fragment, then the connection drops. *)
Definition dropped : Gemini.GenerateContentStreamResult :=
  {| Gemini.stream := [fragment "partial"];
     Gemini.streamFault := Some (mkError "socket hang up" (Some 503));
     Gemini.response := inl (mkError "socket hang up" (Some 503)) |}.

(** The call of Scenario A. *)
Definition systemPrompt : string := "You are helpful".
Definition messages : list MessageParam := [ {| role := user; content := "Hi" |} ].

(** [createMessage] of the sample handler against a fixed backend answer. *)
Definition run (result : Gemini.GenerateContentStreamResult) : Gen unit :=
  Gemini.createMessage geminiModels geminiDefaultModelId unescapeGeminiContent
    MessageParam Content convertAnthropicMessageToGemini (backend result)
    handler systemPrompt messages.

(** The stream the backend opens for the sample call. *)
Definition opened (result : Gemini.GenerateContentStreamResult)
    : JsError + Gemini.GenerateContentStreamResult :=
  Gemini.openStream geminiModels geminiDefaultModelId
    MessageParam Content convertAnthropicMessageToGemini (backend result)
    handler systemPrompt messages.

(** A handler whose options name the given model. *)
Definition handlerFor (model : option string) : Gemini.GeminiHandler :=
  {| Gemini.options := optionsWith (Some "secret"%string) model;
     Gemini.client := {| Gemini.apiKey := "secret" |} |}.

(** [createMessage] of the sample handler against a backend that rejects
    the request with [e]. *)
Definition runRefused (e : JsError) : Gen unit :=
  Gemini.createMessage geminiModels geminiDefaultModelId unescapeGeminiContent
    MessageParam Content convertAnthropicMessageToGemini (λ _ _ _, inl e)
    handler systemPrompt messages.

(** A classification by HTTP status, for the retry scenarios. *)
Definition classify (e : JsError) : Retry.ErrorKind :=
  match status e with
  | Some 429 => Retry.RetryableRateLimited
  | Some 401 | Some 403 => Retry.FatalAuth
  | Some 400 => Retry.FatalBadRequest
  | Some s => if bool_decide (500 ≤ s) then Retry.RetryableServerFault
              else Retry.ProtocolCorruption
  | None => Retry.FatalContentPolicy
  end.

Definition retryOptions : Retry.RetryOptions :=
  {| Retry.maxAttempts := 3; Retry.baseDelay := 1000; Retry.maxDelay := 10000 |}.

Definition rateLimited : JsError := mkError "Too Many Requests" (Some 429).
Definition unauthenticated : JsError := mkError "API key not valid" (Some 401).

(** The wrapper with this classification, no retry-after hint and no
    jitter. *)
Definition retried (call : nat → Gen unit) : Retry.RetryRun :=
  Retry.withRetry classify (λ _, None) (λ _, 0) retryOptions call.

(** Two rate-limited attempts, then Scenario A. *)
Definition twoFailuresThenSuccess (n : nat) : Gen unit :=
  match n with
  | O | S O => runRefused rateLimited
  | _ => run scenarioA
  end.

(** One rate-limited attempt, then a stream that breaks after its first
    text fragment, then Scenario A if there were a third attempt. *)
Definition failureAfterText (n : nat) : Gen unit :=
  match n with
  | O => runRefused rateLimited
  | S O => run dropped
  | _ => run scenarioA
  end.

(** A simple matcher: a path is ignored when it is listed; a path leaving
    the working directory is refused with an exception. *)
Definition listIgnores (patterns : list string) (p : string) : JsError + bool :=
  if String.prefix "../" p then inl (newError "path should be a path.relative()d string")
  else inr (bool_decide (p ∈ patterns)).

Definition controller (exists_ : bool) : ClineIgnore.ClineIgnoreController (list string) :=
  {| ClineIgnore.cwd := "/work"; ClineIgnore.ignoreInstance := [".env"%string];
     ClineIgnore.clineIgnoreExists := exists_ |}.

Definition validate (exists_ : bool) : string → bool :=
  ClineIgnore.validateAccess (list string) listIgnores (λ _ p, p) (λ _ p, p) (λ p, p)
    (controller exists_).

Definition filtered (exists_ : bool) : list string → list string :=
  ClineIgnore.filterPaths (list string) listIgnores (λ _ p, p) (λ _ p, p) (λ p, p)
    (controller exists_).

End Fixtures.

(** ** The controller's life cycle: watcher, initialisation, disposal *)

Module ClineIgnoreLifecycle.
Import Js ClineIgnore.

(** What the constructor registers: the three event subscriptions of the
    file watcher and the watcher itself. *)
Inductive Disposable : Type :=
| OnDidChange
| OnDidCreate
| OnDidDelete
| FileSystemWatcher.

#[export] Instance Disposable_eq_dec : EqDecision Disposable.
Proof. solve_decision. Defined.

(** The events of the watcher on .clineignore. *)
Inductive WatcherEvent : Type := Changed | Created | Deleted.

(** The controller with its [disposables] field. *)
Record Controller (Ignore : Type) : Type := {
  base : ClineIgnoreController Ignore;
  disposables : list Disposable
}.
Arguments base {Ignore} _.
Arguments disposables {Ignore} _.

Section Lifecycle.

Variable Ignore : Type.
Variable ignore : Ignore.
Variable add : Ignore → string → Ignore.
Variable path_join : string → string → string.
Variable fileExistsAtPath : string → JsError + bool.
Variable readFile : string → JsError + string.

(** [setupFileWatcher()]: two pushes, the subscriptions first. *)
Definition setupFileWatcher (this : Controller Ignore) : Controller Ignore :=
  let pushed := disposables this ++ [OnDidChange; OnDidCreate; OnDidDelete] in
  {| base := base this; disposables := pushed ++ [FileSystemWatcher] |}.

(** [constructor(cwd)] with the field initialiser [disposables = []]. *)
Definition constructor (cwd : string) : Controller Ignore :=
  setupFileWatcher
    {| base := ClineIgnore.constructor Ignore ignore cwd; disposables := [] |}.

(** [initialize()]: awaits [loadClineIgnore()]. *)
Definition initialize (this : Controller Ignore) : Controller Ignore :=
  {| base := ClineIgnore.loadClineIgnore Ignore ignore add path_join
               fileExistsAtPath readFile (base this);
     disposables := disposables this |}.

(** The three callbacks of the watcher: each calls [loadClineIgnore()].
    The load is taken to run to its end before the next event. *)
Definition onWatcherEvent (ev : WatcherEvent) (this : Controller Ignore)
    : Controller Ignore :=
  match ev with
  | Changed | Created | Deleted => initialize this
  end.

(** [dispose()]: the disposables released, in the order of [forEach], and
    the controller afterwards. *)
Definition dispose (this : Controller Ignore)
    : list Disposable * Controller Ignore :=
  (disposables this, {| base := base this; disposables := [] |}).

End Lifecycle.

End ClineIgnoreLifecycle.

(** ** The marketplace card (second part of src/api/providers/gemini.ts) *)

Module McpMarketplaceCard.

(** The fields of the props that the handlers and the button read. *)
Record McpServer : Type := { name : string }.

Record McpMarketplaceItem : Type := { mcpId : string }.

Record McpMarketplaceCardProps : Type := {
  item : McpMarketplaceItem;
  installedServers : list McpServer
}.

(** [vscode.postMessage({ type, mcpId })] *)
Record WebviewMessage : Type := {
  type : string;
  messageMcpId : string
}.

(** What happens to a rendered card: a click on the install button, a click
    elsewhere on the card, a message event on the window with the given
    [type]. *)
Inductive Event : Type :=
| InstallClick
| CardClick
| WindowMessage (messageType : string).

(** [installedServers.some((server) => server.name === item.mcpId)] *)
Definition isInstalled (props : McpMarketplaceCardProps) : bool :=
  existsb (λ server, bool_decide (name server = mcpId (item props)))
    (installedServers props).

(** [handleMessage]: registered once by [useEffect]. *)
Definition handleMessage (messageType : string) (isDownloading : bool) : bool :=
  if bool_decide (messageType = "mcpDownloadDetails"%string) then false
  else isDownloading.

(** The click handler around the install button: the new value of
    [isDownloading] and the messages posted to the extension. *)
Definition onInstallClick (props : McpMarketplaceCardProps) (isDownloading : bool)
    : bool * list WebviewMessage :=
  if negb (isInstalled props) && negb isDownloading
  then (true, [ {| type := "downloadMcp"; messageMcpId := mcpId (item props) |} ])
  else (isDownloading, []).

(** [disabled={isInstalled || isDownloading}] *)
Definition buttonDisabled (props : McpMarketplaceCardProps) (isDownloading : bool)
    : bool :=
  isInstalled props || isDownloading.

(** [{isInstalled ? "Installed" : isDownloading ? "Installing..." : "Install"}] *)
Definition buttonLabel (props : McpMarketplaceCardProps) (isDownloading : bool)
    : string :=
  if isInstalled props then "Installed"
  else if isDownloading then "Installing..." else "Install".

(** One event, handled with the props and the state of the latest render. *)
Definition step (props : McpMarketplaceCardProps) (ev : Event) (isDownloading : bool)
    : bool * list WebviewMessage :=
  match ev with
  | InstallClick => onInstallClick props isDownloading
  | CardClick => (isDownloading, [])
  | WindowMessage messageType => (handleMessage messageType isDownloading, [])
  end.

(** A sequence of events, each with the props of the render it meets;
    [useState(false)] gives the first state. *)
Fixpoint run (evs : list (McpMarketplaceCardProps * Event)) (isDownloading : bool)
    : bool * list WebviewMessage :=
  match evs with
  | [] => (isDownloading, [])
  | (props, ev) :: rest =>
      let '(isDownloading', posted) := step props ev isDownloading in
      let '(final, later) := run rest isDownloading' in
      (final, posted ++ later)
  end.

Definition isDownloadDetails (e : McpMarketplaceCardProps * Event) : bool :=
  match e.2 with
  | WindowMessage messageType => bool_decide (messageType = "mcpDownloadDetails"%string)
  | _ => false
  end.

End McpMarketplaceCard.

(** ** Further scenarios *)

Module Scenarios.
Import Js Stream.

(** Two text fragments and an empty one, then a trailer that reports a
    safety block. *)
Definition blockedAfterText : Gemini.GenerateContentStreamResult :=
  {| Gemini.stream := [Fixtures.fragment "Once"; Fixtures.fragment EmptyString;
                       Fixtures.fragment " upon"];
     Gemini.streamFault := None;
     Gemini.response := Fixtures.trailer "SAFETY" None |}.

(** Text, then a trailer with finish reason OTHER, every frame decoding. *)
Definition otherAfterText : Gemini.GenerateContentStreamResult :=
  {| Gemini.stream := [Fixtures.fragment "Once"; Fixtures.fragment " upon";
                       Fixtures.fragment EmptyString];
     Gemini.streamFault := None;
     Gemini.response := Fixtures.trailer "OTHER" None |}.

(** Text, then the frame of a candidate blocked for safety. *)
Definition safetyAfterText : Gemini.GenerateContentStreamResult :=
  {| Gemini.stream := [Fixtures.fragment "Once"; Fixtures.blockedFrame "SAFETY"];
     Gemini.streamFault := None;
     Gemini.response := Fixtures.trailer "SAFETY" None |}.

(** A stream whose [response] promise resolves to nothing. *)
Definition withoutResponse : Gemini.GenerateContentStreamResult :=
  {| Gemini.stream := [Fixtures.fragment "Hel"];
     Gemini.streamFault := None;
     Gemini.response := inr None |}.

(** A file system with a .clineignore in /work that lists one pattern. *)
Definition path_join (a b : string) : string := a +:+ "/" +:+ b.

Definition fileExistsAtPath (p : string) : JsError + bool :=
  inr (bool_decide (p = "/work/.clineignore"%string)).

Definition readFile (p : string) : JsError + string :=
  if bool_decide (p = "/work/.clineignore"%string) then inr ".env"%string
  else inl (newError "ENOENT").

(** The list matcher of the fixtures: a loaded content is one pattern. *)
Definition add (patterns : list string) (content : string) : list string :=
  patterns ++ [content].

Definition load : ClineIgnore.ClineIgnoreController (list string) →
                  ClineIgnore.ClineIgnoreController (list string) :=
  ClineIgnore.loadClineIgnore (list string) [] add path_join fileExistsAtPath readFile.

Definition validateAccess : ClineIgnore.ClineIgnoreController (list string) →
                            string → bool :=
  ClineIgnore.validateAccess (list string) Fixtures.listIgnores
    (λ _ p, p) (λ _ p, p) (λ p, p).

Definition filterPaths : ClineIgnore.ClineIgnoreController (list string) →
                         list string → list string :=
  ClineIgnore.filterPaths (list string) Fixtures.listIgnores
    (λ _ p, p) (λ _ p, p) (λ p, p).

(** A card for a server that is not installed, and one for a server that
    is. *)
Definition card : McpMarketplaceCard.McpMarketplaceCardProps :=
  {| McpMarketplaceCard.item := {| McpMarketplaceCard.mcpId := "github" |};
     McpMarketplaceCard.installedServers :=
       [ {| McpMarketplaceCard.name := "filesystem" |} ] |}.

Definition installedCard : McpMarketplaceCard.McpMarketplaceCardProps :=
  {| McpMarketplaceCard.item := {| McpMarketplaceCard.mcpId := "github" |};
     McpMarketplaceCard.installedServers :=
       [ {| McpMarketplaceCard.name := "filesystem" |};
         {| McpMarketplaceCard.name := "github" |} ] |}.

End Scenarios.

(** * Properties *)

(** ** The generator monad *)

Module StreamFacts.
Import Js Stream.

Lemma tryCatch_rethrow {A : Type} (m : Gen A) :
  tryCatch m (λ error, throw error) = m.
Proof.
  destruct m as [ys [e | a]]; simpl; [| reflexivity].
  by rewrite app_nil_r.
Qed.

Lemma bind_await_ok {A B : Type} (a : A) (k : A → Gen B) :
  (await (inr a) ≫= k) = k a.
Proof.
  unfold mbind, Gen_bind, bind, await. by destruct (k a).
Qed.

Lemma bind_await_fail {A B : Type} (e : JsError) (k : A → Gen B) :
  (await (inl e) ≫= k) = throw e.
Proof. reflexivity. Qed.

Lemma events_ok {A : Type} (ys : list ApiStreamChunk) (a : A) :
  events (ys, inr a) = toEvent <$> ys.
Proof. unfold events; simpl. by rewrite app_nil_r. Qed.

Lemma events_fail {A : Type} (ys : list ApiStreamChunk) (e : JsError) :
  events (A := A) (ys, inl e) = (toEvent <$> ys) ++ [Error e].
Proof. reflexivity. Qed.

Lemma toEvent_text (ts : list string) :
  toEvent <$> (ApiStreamTextChunk <$> ts) = TextChunk <$> ts.
Proof. by rewrite <- list_fmap_compose. Qed.

(** Text events are not terminal. *)
Lemma filter_terminal_text (ts : list string) :
  List.filter isTerminal (TextChunk <$> ts) = [].
Proof. induction ts as [| t ts IH]; [reflexivity | exact IH]. Qed.

Lemma filter_usage_text (ts : list string) :
  List.filter isUsage (TextChunk <$> ts) = [].
Proof. induction ts as [| t ts IH]; [reflexivity | exact IH]. Qed.

Lemma existsb_text (p : StreamEvent → bool) (ts : list string) :
  (∀ t, p (TextChunk t) = false) → existsb p (TextChunk <$> ts) = false.
Proof.
  intros Hp. induction ts as [| t ts IH]; [reflexivity |].
  rewrite fmap_cons. simpl. rewrite Hp. exact IH.
Qed.

(** Of a stream made of text events and one closing event, every consumed
    prefix holds at most that one closing event. *)
Lemma take_text_then_one (ts : list string) (ev : StreamEvent) (n : nat) :
  ∃ k, take n ((TextChunk <$> ts) ++ [ev]) = TextChunk <$> take k ts
     ∨ take n ((TextChunk <$> ts) ++ [ev]) = (TextChunk <$> ts) ++ [ev].
Proof.
  destruct (decide (n ≤ length ts)%nat) as [Hle | Hgt].
  - exists n. left.
    rewrite take_app_le by (by rewrite length_fmap).
    by rewrite fmap_take.
  - exists 0%nat. right.
    apply take_ge. rewrite length_app, length_fmap; simpl. lia.
Qed.

End StreamFacts.

(** ** The Gemini handler *)

Module GeminiFacts.
Import Js Stream Gemini StreamFacts.

Section Loop.

Context (unescapeGeminiContent : string → string).

Local Abbreviation processChunk := (Gemini.processChunk unescapeGeminiContent).
Local Abbreviation forAwait := (Gemini.forAwait unescapeGeminiContent).
Local Abbreviation consumeStream := (Gemini.consumeStream unescapeGeminiContent).

Lemma processChunk_fail (c : Chunk) (e : JsError) (b : bool) :
  chunkText c = inl e → processChunk c b = throw e.
Proof. intros H. unfold Gemini.processChunk. by rewrite H. Qed.

Lemma processChunk_text (c : Chunk) (t : option string) (b : bool) :
  chunkText c = inr t →
  processChunk c b =
    (ApiStreamTextChunk <$> (unescapeGeminiContent <$> presentTexts [t]), inr b).
Proof.
  intros H. unfold Gemini.processChunk. rewrite H, bind_await_ok.
  destruct t as [s |]; [| reflexivity].
  unfold presentTexts; simpl.
  by destruct (bool_decide (s = EmptyString)).
Qed.

Lemma presentTexts_cons (t : option string) (ts : list (option string)) :
  presentTexts (t :: ts) = presentTexts [t] ++ presentTexts ts.
Proof.
  unfold presentTexts. destruct t as [s |]; simpl; [| reflexivity].
  by destruct (bool_decide (s = EmptyString)).
Qed.

Lemma presentTexts_app (ts us : list (option string)) :
  presentTexts (ts ++ us) = presentTexts ts ++ presentTexts us.
Proof.
  induction ts as [| t ts IH]; [reflexivity |].
  rewrite <- app_comm_cons, presentTexts_cons, IH, (presentTexts_cons t ts).
  by rewrite app_assoc.
Qed.

(** The loop runs through fragments that decode, yielding their non-empty
    texts, and goes on with the rest of the stream. *)
Lemma forAwait_decoded (chunks rest : list Chunk) (texts : list (option string))
    (fault : option JsError) (b : bool) :
  decodeTo chunks texts →
  forAwait (chunks ++ rest) fault b =
    ((ApiStreamTextChunk <$> (unescapeGeminiContent <$> presentTexts texts))
       ++ yielded (forAwait rest fault b),
     outcome (forAwait rest fault b)).
Proof.
  intros H. induction H as [| c t chunks texts Hc _ IH].
  - simpl. by destruct (forAwait rest fault b).
  - rewrite <- app_comm_cons. cbn [Gemini.forAwait].
    rewrite (processChunk_text c t b Hc).
    unfold mbind, Gen_bind, bind; cbv beta iota.
    rewrite IH, (presentTexts_cons t texts), !fmap_app, <- app_assoc.
    reflexivity.
Qed.

(** At the first chunk whose decoding throws, the loop ends with that
    exception. *)
Lemma forAwait_fail (c : Chunk) (post : list Chunk) (e : JsError)
    (fault : option JsError) (b : bool) :
  chunkText c = inl e → forAwait (c :: post) fault b = throw e.
Proof.
  intros H. cbn [Gemini.forAwait]. by rewrite (processChunk_fail c e b H).
Qed.

(** Every stream splits at its first failing chunk, if it has one. *)
Lemma decode_split (chunks : list Chunk) :
  (∃ texts, decodeTo chunks texts)
  ∨ (∃ pre texts c e post,
       chunks = pre ++ c :: post ∧ decodeTo pre texts ∧ chunkText c = inl e).
Proof.
  induction chunks as [| c chunks IH].
  - left. exists []. constructor.
  - destruct (chunkText c) as [e | t] eqn:Hc.
    + right. exists [], [], c, e, chunks. repeat split; [constructor | done].
    + destruct IH as [[texts H] | (pre & texts & c' & e & post & -> & H & Hc')].
      * left. exists (t :: texts). by constructor.
      * right. exists (c :: pre), (t :: texts), c', e, post.
        repeat split; [by constructor | done].
Qed.

(** The flag the loop returns is the one it started with: the assignment in
    the catch handler is followed by a rethrow. *)
Lemma forAwait_flag (chunks : list Chunk) (fault : option JsError) (b b' : bool) :
  outcome (forAwait chunks fault b) = inr b' → b' = b.
Proof.
  destruct (decode_split chunks) as [[texts H] | (pre & texts & c & e & post & -> & H & Hc)].
  - rewrite <- (app_nil_r chunks), (forAwait_decoded _ _ _ _ _ H).
    destruct fault; simpl; [discriminate | congruence].
  - rewrite (forAwait_decoded _ _ _ _ _ H), (forAwait_fail _ _ _ _ _ Hc).
    discriminate.
Qed.

(** After the loop the run either throws or yields one usage chunk and
    returns. *)
Lemma finishStream_cases (result : GenerateContentStreamResult) :
  (∃ e, finishStream result = throw e)
  ∨ (∃ r, response result = inr (Some r)
        ∧ (∀ reason, reason ∈ blockingReasons → finishReasonOf r ≠ Some reason)
        ∧ finishStream result =
            yield (ApiStreamUsageChunk
                     (nullish (usageMetadata r ≫= promptTokenCount) 0)
                     (nullish (usageMetadata r ≫= candidatesTokenCount) 0))).
Proof.
  unfold finishStream.
  destruct (response result) as [e | [r |]]; [left; by exists e | | left; by eexists].
  rewrite bind_await_ok.
  repeat case_bool_decide; try (left; by eexists).
  right. exists r. split; [done |]. split; [| done].
  intros reason Hin. unfold blockingReasons in Hin.
  rewrite !elem_of_cons in Hin.
  destruct Hin as [-> | [-> | [-> | Hin]]]; [done | done | done |].
  by apply elem_of_nil in Hin.
Qed.

Lemma consumeStream_decoded (result : GenerateContentStreamResult)
    (texts : list (option string)) :
  decodeTo (stream result) texts → streamFault result = None →
  consumeStream result =
    ((ApiStreamTextChunk <$> (unescapeGeminiContent <$> presentTexts texts))
       ++ yielded (finishStream result),
     outcome (finishStream result)).
Proof.
  intros H Hf. unfold Gemini.consumeStream.
  rewrite <- (app_nil_r (stream result)), (forAwait_decoded _ _ _ _ _ H), Hf.
  unfold mbind, Gen_bind, bind; simpl.
  destruct (finishStream result) as [zs r]; simpl.
  by rewrite app_nil_r.
Qed.

Lemma consumeStream_fault (result : GenerateContentStreamResult)
    (texts : list (option string)) (e : JsError) :
  decodeTo (stream result) texts → streamFault result = Some e →
  consumeStream result =
    (ApiStreamTextChunk <$> (unescapeGeminiContent <$> presentTexts texts), inl e).
Proof.
  intros H Hf. unfold Gemini.consumeStream.
  rewrite <- (app_nil_r (stream result)), (forAwait_decoded _ _ _ _ _ H), Hf.
  unfold mbind, Gen_bind, bind; simpl.
  by rewrite app_nil_r.
Qed.

Lemma consumeStream_corrupt (result : GenerateContentStreamResult)
    (pre post : list Chunk) (texts : list (option string)) (c : Chunk) (e : JsError) :
  stream result = pre ++ c :: post → decodeTo pre texts → chunkText c = inl e →
  consumeStream result =
    (ApiStreamTextChunk <$> (unescapeGeminiContent <$> presentTexts texts), inl e).
Proof.
  intros Hs H Hc. unfold Gemini.consumeStream.
  rewrite Hs, (forAwait_decoded _ _ _ _ _ H), (forAwait_fail _ _ _ _ _ Hc).
  unfold mbind, Gen_bind, bind; simpl.
  by rewrite app_nil_r.
Qed.

(** The two shapes of a run over an opened stream: the non-empty texts of
    the fragments decoded so far, then an exception or one usage chunk. *)
Lemma consumeStream_shape (result : GenerateContentStreamResult) :
  ∃ texts : list (option string),
    let ts := unescapeGeminiContent <$> presentTexts texts in
    (∃ e, consumeStream result = (ApiStreamTextChunk <$> ts, inl e))
    ∨ (∃ i o, consumeStream result =
                ((ApiStreamTextChunk <$> ts) ++ [ApiStreamUsageChunk i o], inr tt)).
Proof.
  destruct (decode_split (stream result))
    as [[texts H] | (pre & texts & c & e & post & Hs & H & Hc)].
  - exists texts; cbv zeta.
    destruct (streamFault result) as [e |] eqn:Hf.
    + left. exists e. by apply consumeStream_fault.
    + rewrite (consumeStream_decoded _ _ H Hf).
      destruct (finishStream_cases result) as [[e ->] | (r & _ & _ & ->)].
      * left. exists e. simpl. by rewrite app_nil_r.
      * right. by eexists _, _.
  - exists texts; cbv zeta.
    left. exists e. by eapply consumeStream_corrupt.
Qed.

Lemma presentTexts_falsy (t : option string) :
  truthy t = false → presentTexts [t] = [].
Proof.
  destruct t as [s |]; [| reflexivity].
  unfold presentTexts; simpl. intros H.
  by destruct (bool_decide (s = EmptyString)).
Qed.

Lemma presentTexts_nonempty (texts : list (option string)) (s : string) :
  s ∈ presentTexts texts → s ≠ EmptyString.
Proof.
  unfold presentTexts. rewrite list_elem_of_In, filter_In.
  intros [_ H] ->. by rewrite bool_decide_eq_true_2 in H.
Qed.

(** A fragment whose text is absent or empty leaves no trace in the run of
    the loop. *)
Lemma forAwait_skip (pre post : list Chunk) (c : Chunk) (t : option string)
    (fault : option JsError) (b : bool) :
  chunkText c = inr t → truthy t = false →
  forAwait (pre ++ c :: post) fault b = forAwait (pre ++ post) fault b.
Proof.
  intros Hc Ht. revert b. induction pre as [| a pre IH]; intros b.
  - simpl app. cbn [Gemini.forAwait].
    rewrite (processChunk_text c t b Hc), (presentTexts_falsy t Ht).
    unfold mbind, Gen_bind, bind; simpl.
    by destruct (forAwait post fault b).
  - rewrite <- !app_comm_cons. cbn [Gemini.forAwait].
    destruct (processChunk a b) as [ys [e | h]]; [reflexivity |].
    unfold mbind, Gen_bind, bind. by rewrite IH.
Qed.

(** With a blocking finish reason in the response, a run over an opened
    stream always ends with an exception. *)
Lemma consumeStream_blocked_fails (result : GenerateContentStreamResult)
    (r : GenerateContentResponse) (reason : string) :
  response result = inr (Some r) →
  finishReasonOf r = Some reason → reason ∈ blockingReasons →
  ∃ (texts : list (option string)) (e : JsError),
    consumeStream result
      = (ApiStreamTextChunk <$> (unescapeGeminiContent <$> presentTexts texts), inl e).
Proof.
  intros Hr Hfin Hin.
  destruct (decode_split (stream result))
    as [[texts H] | (pre & texts & c & e & post & Hs & H & Hc)].
  - exists texts.
    destruct (streamFault result) as [e |] eqn:Hf.
    + exists e. by apply consumeStream_fault.
    + rewrite (consumeStream_decoded _ _ H Hf).
      destruct (finishStream_cases result) as [[e ->] | (r' & Hr' & Hnb & _)].
      * exists e. simpl. by rewrite app_nil_r.
      * rewrite Hr in Hr'. injection Hr' as <-.
        by destruct (Hnb reason Hin).
  - exists texts, e. by eapply consumeStream_corrupt.
Qed.

Lemma filter_text_events (ts : list string) (ev : StreamEvent) :
  isTerminal ev = true →
  List.filter isText ((TextChunk <$> ts) ++ [ev]) = TextChunk <$> ts.
Proof.
  intros Hev. rewrite List.filter_app.
  assert (List.filter isText [ev] = []) as -> by (by destruct ev).
  rewrite app_nil_r.
  induction ts as [| t ts IH]; [reflexivity |].
  rewrite fmap_cons. simpl. by rewrite IH.
Qed.

End Loop.

Section Handler.

Context (geminiModels : gmap string ModelInfo) (geminiDefaultModelId : string)
        (unescapeGeminiContent : string → string)
        (MessageParam Content : Type)
        (convertAnthropicMessageToGemini : MessageParam → Content)
        (generateContentStream :
           GoogleGenerativeAI → ModelParams → GenerateContentRequest Content →
           JsError + GenerateContentStreamResult).

Local Abbreviation consumeStream := (Gemini.consumeStream unescapeGeminiContent).
Local Abbreviation openStream :=
  (Gemini.openStream geminiModels geminiDefaultModelId MessageParam Content
     convertAnthropicMessageToGemini generateContentStream).
Local Abbreviation createMessage :=
  (Gemini.createMessage geminiModels geminiDefaultModelId unescapeGeminiContent
     MessageParam Content convertAnthropicMessageToGemini generateContentStream).

Implicit Types (this : GeminiHandler) (systemPrompt : string)
  (messages : list MessageParam) (result : GenerateContentStreamResult).

Lemma createMessage_opened this systemPrompt messages result :
  openStream this systemPrompt messages = inr result →
  createMessage this systemPrompt messages = consumeStream result.
Proof.
  intros H. unfold Gemini.createMessage.
  by rewrite tryCatch_rethrow, H, bind_await_ok.
Qed.

Lemma createMessage_refused this systemPrompt messages (e : JsError) :
  openStream this systemPrompt messages = inl e →
  createMessage this systemPrompt messages = throw e.
Proof.
  intros H. unfold Gemini.createMessage.
  by rewrite tryCatch_rethrow, H.
Qed.

(** Every run yields text chunks and then either throws or yields one
    usage chunk and returns. *)
Lemma createMessage_shape this systemPrompt messages :
  ∃ texts : list (option string),
    let ts := unescapeGeminiContent <$> presentTexts texts in
    (∃ e, createMessage this systemPrompt messages
            = (ApiStreamTextChunk <$> ts, inl e))
    ∨ (∃ i o, createMessage this systemPrompt messages
                = ((ApiStreamTextChunk <$> ts) ++ [ApiStreamUsageChunk i o], inr tt)).
Proof.
  destruct (openStream this systemPrompt messages) as [e | result] eqn:Ho.
  - exists []. left. exists e. by apply createMessage_refused.
  - rewrite (createMessage_opened _ _ _ _ Ho). apply consumeStream_shape.
Qed.

Lemma createMessage_events_shape this systemPrompt messages :
  ∃ (texts : list (option string)) (ev : StreamEvent),
    events (createMessage this systemPrompt messages)
      = (TextChunk <$> (unescapeGeminiContent <$> presentTexts texts)) ++ [ev]
    ∧ isTerminal ev = true.
Proof.
  destruct (createMessage_shape this systemPrompt messages)
    as (texts & [[e ->] | (i & o & ->)]); exists texts.
  - exists (Error e). by rewrite events_fail, toEvent_text.
  - exists (Usage i o). by rewrite events_ok, fmap_app, toEvent_text.
Qed.

(** C2, as amended.  Take a stream whose response carries a finish reason.
    When every chunk decodes, none with text, and the stream ends normally,
    the reasons SAFETY, RECITATION and OTHER each make the event sequence
    exactly one [Error] with the message of that reason, and any other
    reason, length truncation included, makes it exactly one [Usage].  When
    instead the decoding of a chunk throws before any text, as it does on
    the frame of a blocked candidate, the event sequence is that exception
    as the one [Error].  In every case a run that produced no text under a
    reason SAFETY, RECITATION or OTHER is exactly one [Error]. *)
Theorem createMessage_blocked_without_text this systemPrompt messages result
    (r : GenerateContentResponse) :
  openStream this systemPrompt messages = inr result →
  response result = inr (Some r) →
  (∀ texts : list (option string),
     decodeTo (stream result) texts → presentTexts texts = [] →
     streamFault result = None →
     (finishReasonOf r = Some "SAFETY"%string →
        events (createMessage this systemPrompt messages)
          = [Error (newError "Content generation was blocked for safety reasons")])
     ∧ (finishReasonOf r = Some "RECITATION"%string →
        events (createMessage this systemPrompt messages)
          = [Error (newError
               "Content generation was blocked due to potential copyright issues")])
     ∧ (finishReasonOf r = Some "OTHER"%string →
        events (createMessage this systemPrompt messages)
          = [Error (newError "Content generation was blocked for other reasons")])
     ∧ ((∀ reason, reason ∈ blockingReasons → finishReasonOf r ≠ Some reason) →
        events (createMessage this systemPrompt messages)
          = [Usage (nullish (usageMetadata r ≫= promptTokenCount) 0)
                   (nullish (usageMetadata r ≫= candidatesTokenCount) 0)]))
  ∧ (∀ (pre post : list Chunk) (texts : list (option string)) (c : Chunk)
       (e : JsError),
       stream result = pre ++ c :: post → decodeTo pre texts →
       presentTexts texts = [] → chunkText c = inl e →
       events (createMessage this systemPrompt messages) = [Error e])
  ∧ (∀ reason, finishReasonOf r = Some reason → reason ∈ blockingReasons →
       List.filter isText (events (createMessage this systemPrompt messages)) = [] →
       ∃ e, events (createMessage this systemPrompt messages) = [Error e]).
Proof.
  intros Ho Hr. rewrite (createMessage_opened _ _ _ _ Ho).
  split; [| split].
  - intros texts Hd Hnil Hf.
    rewrite (consumeStream_decoded _ _ _ Hd Hf), Hnil.
    unfold finishStream. rewrite Hr, bind_await_ok.
    repeat split.
    + intros ->. reflexivity.
    + intros ->. reflexivity.
    + intros ->. reflexivity.
    + intros Hn.
      rewrite !bool_decide_eq_false_2; [reflexivity | ..];
        apply Hn; unfold blockingReasons; set_solver.
  - intros pre post texts c e Hs Hd Hnil Hc.
    by rewrite (consumeStream_corrupt _ _ _ _ _ _ _ Hs Hd Hc), Hnil.
  - intros reason Hfin Hin.
    destruct (consumeStream_blocked_fails unescapeGeminiContent
                result r reason Hr Hfin Hin)
      as (texts & e & ->).
    rewrite events_fail, toEvent_text, filter_text_events by done.
    intros Hnil. exists e.
    apply fmap_nil_inv in Hnil. by rewrite Hnil.
Qed.

(** C3.  A stream whose chunks all decode, that ends normally and whose
    response carries no blocking finish reason makes the run return
    normally with one [Usage] event: it is the last event, the events
    before it are the texts of the fragments, and a token count that the
    response lacks is reported as zero.  Conversely every run that returns
    normally comes from such a stream and has that event sequence. *)
Theorem createMessage_success_usage_last this systemPrompt messages :
  (∀ result (texts : list (option string)) (r : GenerateContentResponse),
     openStream this systemPrompt messages = inr result →
     decodeTo (stream result) texts → streamFault result = None →
     response result = inr (Some r) →
     (∀ reason, reason ∈ blockingReasons → finishReasonOf r ≠ Some reason) →
     let usage := Usage (nullish (usageMetadata r ≫= promptTokenCount) 0)
                        (nullish (usageMetadata r ≫= candidatesTokenCount) 0) in
     outcome (createMessage this systemPrompt messages) = inr tt
     ∧ events (createMessage this systemPrompt messages)
         = (TextChunk <$> (unescapeGeminiContent <$> presentTexts texts)) ++ [usage]
     ∧ last (events (createMessage this systemPrompt messages)) = Some usage
     ∧ List.filter isUsage (events (createMessage this systemPrompt messages))
         = [usage]
     ∧ (usageMetadata r ≫= promptTokenCount = None →
          ∃ o, last (events (createMessage this systemPrompt messages))
                 = Some (Usage 0 o))
     ∧ (usageMetadata r ≫= candidatesTokenCount = None →
          ∃ i, last (events (createMessage this systemPrompt messages))
                 = Some (Usage i 0)))
  ∧ (outcome (createMessage this systemPrompt messages) = inr tt →
     ∃ result (texts : list (option string)) (r : GenerateContentResponse),
       openStream this systemPrompt messages = inr result
       ∧ decodeTo (stream result) texts
       ∧ streamFault result = None
       ∧ response result = inr (Some r)
       ∧ (∀ reason, reason ∈ blockingReasons → finishReasonOf r ≠ Some reason)
       ∧ let usage := Usage (nullish (usageMetadata r ≫= promptTokenCount) 0)
                            (nullish (usageMetadata r ≫= candidatesTokenCount) 0) in
         events (createMessage this systemPrompt messages)
           = (TextChunk <$> (unescapeGeminiContent <$> presentTexts texts)) ++ [usage]
         ∧ last (events (createMessage this systemPrompt messages)) = Some usage
         ∧ List.filter isUsage (events (createMessage this systemPrompt messages))
             = [usage]).
Proof.
  assert (∀ result (texts : list (option string)) (r : GenerateContentResponse),
    decodeTo (stream result) texts → streamFault result = None →
    response result = inr (Some r) →
    (∀ reason, reason ∈ blockingReasons → finishReasonOf r ≠ Some reason) →
    consumeStream result
      = ((ApiStreamTextChunk <$> (unescapeGeminiContent <$> presentTexts texts))
           ++ [ApiStreamUsageChunk
                 (nullish (usageMetadata r ≫= promptTokenCount) 0)
                 (nullish (usageMetadata r ≫= candidatesTokenCount) 0)],
         inr tt)) as Hrun.
  { intros result texts r Hd Hf Hr Hn.
    rewrite (consumeStream_decoded _ _ _ Hd Hf).
    unfold finishStream. rewrite Hr, bind_await_ok.
    rewrite !bool_decide_eq_false_2; [reflexivity | ..];
      apply Hn; unfold blockingReasons; set_solver. }
  split.
  - intros result texts r Ho Hd Hf Hr Hn. cbv zeta.
    rewrite (createMessage_opened _ _ _ _ Ho), (Hrun _ _ _ Hd Hf Hr Hn).
    rewrite events_ok, fmap_app, toEvent_text.
    simpl (toEvent <$> [_]). rewrite last_snoc.
    repeat split.
    + rewrite List.filter_app, filter_usage_text. reflexivity.
    + intros ->. by eexists.
    + intros ->. by eexists.
  - destruct (openStream this systemPrompt messages) as [e | result] eqn:Ho.
    { rewrite (createMessage_refused _ _ _ _ Ho). discriminate. }
    rewrite (createMessage_opened _ _ _ _ Ho).
    destruct (decode_split (stream result))
      as [[texts H] | (pre & texts & c & e & post & Hs & H & Hc)].
    2: { rewrite (consumeStream_corrupt _ _ _ _ _ _ _ Hs H Hc). discriminate. }
    destruct (streamFault result) as [e |] eqn:Hf.
    { rewrite (consumeStream_fault _ _ _ _ H Hf). discriminate. }
    destruct (finishStream_cases result) as [[e He] | (r & Hr & Hn & _)].
    { rewrite (consumeStream_decoded _ _ _ H Hf), He. discriminate. }
    rewrite (Hrun _ _ _ H Hf Hr Hn).
    intros _. exists result, texts, r. repeat split; try done; cbv zeta.
    + by rewrite events_ok, fmap_app, toEvent_text.
    + rewrite events_ok, fmap_app. apply last_snoc.
    + rewrite events_ok, fmap_app, toEvent_text, List.filter_app, filter_usage_text.
      reflexivity.
Qed.

(** C4.  However many events of a run are consumed, they hold at most one
    terminal event, and never a [Usage] together with an [Error]. *)
Theorem createMessage_one_terminal this systemPrompt messages (n : nat) :
  let seen := take n (events (createMessage this systemPrompt messages)) in
  (length (List.filter isTerminal seen) ≤ 1)%nat
  ∧ ¬ (existsb isUsage seen = true ∧ existsb isError seen = true).
Proof.
  cbv zeta.
  destruct (createMessage_events_shape this systemPrompt messages)
    as (texts & ev & -> & Hev).
  destruct (take_text_then_one (unescapeGeminiContent <$> presentTexts texts) ev n)
    as [k [-> | ->]].
  - rewrite filter_terminal_text, existsb_text by done.
    split; [simpl; lia | intros [? _]; discriminate].
  - rewrite List.filter_app, filter_terminal_text, !existsb_app.
    rewrite !existsb_text by done. simpl.
    destruct ev; simpl; split; try lia; intros [? ?]; discriminate.
Qed.

(** C5.  When the decoding of a chunk throws, the events are the texts of
    the fragments before it followed by that exception as the [Error]:
    nothing of the chunks after it is emitted. *)
Theorem createMessage_aborts_at_malformed_chunk this systemPrompt messages result
    (pre post : list Chunk) (texts : list (option string)) (c : Chunk) (e : JsError) :
  openStream this systemPrompt messages = inr result →
  stream result = pre ++ c :: post →
  decodeTo pre texts →
  chunkText c = inl e →
  events (createMessage this systemPrompt messages)
    = (TextChunk <$> (unescapeGeminiContent <$> presentTexts texts)) ++ [Error e].
Proof.
  intros Ho Hs Hd Hc.
  rewrite (createMessage_opened _ _ _ _ Ho).
  rewrite (consumeStream_corrupt _ _ _ _ _ _ _ Hs Hd Hc).
  by rewrite events_fail, toEvent_text.
Qed.

(** C8.  No text event of a run is empty, and a fragment whose text is
    absent or empty is dropped: the run is the one of the stream without
    it.  The unescaping function is assumed to keep a non-empty text
    non-empty. *)
Theorem createMessage_no_empty_text this systemPrompt messages :
  (∀ s, s ≠ EmptyString → unescapeGeminiContent s ≠ EmptyString) →
  (∀ t, TextChunk t ∈ events (createMessage this systemPrompt messages) →
        t ≠ EmptyString)
  ∧ (∀ pre post c (t : option string) fault resp,
       chunkText c = inr t → truthy t = false →
       consumeStream {| stream := pre ++ c :: post; streamFault := fault;
                        response := resp |}
       = consumeStream {| stream := pre ++ post; streamFault := fault;
                          response := resp |}).
Proof.
  intros Hne. split.
  - intros t.
    destruct (createMessage_events_shape this systemPrompt messages)
      as (texts & ev & -> & Hev).
    rewrite elem_of_app, list_elem_of_singleton, list_elem_of_fmap.
    intros [(s & [= ->] & Hs) | <-]; [| discriminate].
    apply list_elem_of_fmap in Hs as (s' & -> & Hs').
    apply Hne. by eapply presentTexts_nonempty.
  - intros pre post c t fault resp Hc Ht.
    unfold Gemini.consumeStream, finishStream; simpl.
    by rewrite (forAwait_skip _ _ _ _ _ _ _ Hc Ht).
Qed.

End Handler.

(** *** The constructor and the model lookup *)

(** C7.  Without a key, or with the empty string as key, the constructor
    throws at once; with a non-empty key it returns the handler. *)
Theorem constructor_fails_fast (o : ApiHandlerOptions) :
  (geminiApiKey o = None →
     constructor o = inl (newError "API key is required for Google Gemini"))
  ∧ (geminiApiKey o = Some EmptyString →
     constructor o = inl (newError "API key is required for Google Gemini"))
  ∧ (∀ k, geminiApiKey o = Some k → k ≠ EmptyString →
       constructor o = inr {| options := o; client := {| apiKey := k |} |}).
Proof.
  unfold constructor. split; [| split].
  - intros ->. reflexivity.
  - intros ->. reflexivity.
  - intros k -> Hk. simpl. by rewrite bool_decide_eq_false_2.
Qed.

(** An empty key is treated like a missing one. *)
Lemma constructor_empty_key (o : ApiHandlerOptions) :
  geminiApiKey o = Some EmptyString →
  constructor o = inl (newError "API key is required for Google Gemini").
Proof. unfold constructor. intros ->. reflexivity. Qed.

Section Lookup.

Context (geminiModels : gmap string ModelInfo) (geminiDefaultModelId : string).

Local Abbreviation getModel := (Gemini.getModel geminiModels geminiDefaultModelId).
Local Abbreviation defaultModel :=
  {| id := geminiDefaultModelId; info := get geminiModels geminiDefaultModelId |}.

(** An identifier of the catalog resolves to its own descriptor. *)
Lemma getModel_known (this : GeminiHandler) (m : string) (d : ModelInfo) :
  apiModelId (options this) = Some m → m ≠ EmptyString →
  geminiModels !! m = Some d →
  getModel this = {| id := m; info := Own d |}.
Proof.
  intros Hm Hne Hd. unfold Gemini.getModel, has_property, get.
  rewrite Hm, Hd; simpl.
  rewrite (bool_decide_eq_false_2 _ Hne); simpl.
  reflexivity.
Qed.

(** No identifier, or the empty one, resolves to the default. *)
Lemma getModel_absent (this : GeminiHandler) :
  truthy (apiModelId (options this)) = false → getModel this = defaultModel.
Proof.
  intros H. unfold Gemini.getModel.
  destruct (apiModelId (options this)); [by rewrite H | done].
Qed.

(** An identifier that is neither in the catalog nor a member of
    [Object.prototype] resolves to the default. *)
Lemma getModel_unknown (this : GeminiHandler) (m : string) :
  apiModelId (options this) = Some m →
  geminiModels !! m = None → m ∉ objectPrototypeKeys →
  getModel this = defaultModel.
Proof.
  intros Hm Hd Hp. unfold Gemini.getModel, has_property.
  rewrite Hm, Hd.
  rewrite (bool_decide_eq_false_2 (is_Some None)) by (by intros [? ?]).
  rewrite (bool_decide_eq_false_2 _ Hp).
  by rewrite andb_false_r.
Qed.

(** C6, where the code departs from it.  The identifier "toString" is not
    in the catalog, yet [in] finds it on the prototype chain: the lookup
    returns that identifier with the inherited member as its descriptor,
    which is not the default model. *)
Theorem getModel_prototype_key (this : GeminiHandler) :
  apiModelId (options this) = Some "toString"%string →
  geminiModels !! "toString"%string = None →
  is_Some (geminiModels !! geminiDefaultModelId) →
  getModel this = {| id := "toString"; info := Inherited "toString" |}
  ∧ getModel this ≠ defaultModel.
Proof.
  intros Hm Hd [d Hdef].
  assert (getModel this = {| id := "toString"; info := Inherited "toString" |}) as ->.
  { unfold Gemini.getModel, has_property, get. by rewrite Hm, Hd. }
  split; [reflexivity |].
  unfold get. rewrite Hdef. intros [= _ ?].
Qed.

End Lookup.

(** *** The scenarios *)

Lemma unescapeGeminiContent_nonempty (s : string) :
  s ≠ EmptyString → Fixtures.unescapeGeminiContent s ≠ EmptyString.
Proof.
  destruct s as [| a rest]; [done |]. intros _. simpl.
  destruct (Ascii.eqb a Fixtures.backslash); [| done].
  destruct rest as [| c rest']; [done |].
  by destruct (Fixtures.unescapeChar c).
Qed.

(** Scenario A of the spec. *)
Example scenarioA_events :
  events (Fixtures.run Fixtures.scenarioA)
    = [TextChunk "Hel"; TextChunk "lo!"; Usage 5 2].
Proof. vm_compute. reflexivity. Qed.

(** A trailer without usage metadata still gives a [Usage] event. *)
Example missing_usage_defaults_to_zero :
  events (Fixtures.run (Fixtures.finishedWith "STOP")) = [Usage 0 0].
Proof. vm_compute. reflexivity. Qed.

(** Scenario C of the spec, before the retry wrapper. *)
Example dropped_events :
  events (Fixtures.run Fixtures.dropped)
    = [TextChunk "partial"; Error (mkError "socket hang up" (Some 503))].
Proof. vm_compute. reflexivity. Qed.

(** C2, as stated, fails on length truncation: with no text fragment and
    finish reason LENGTH, or MAX_TOKENS as the backend spells it, the event
    sequence is one [Usage] and holds no [Error]. *)
Lemma createMessage_length_truncated_is_usage :
  events (Fixtures.run (Fixtures.finishedWith "LENGTH")) = [Usage 0 0]
  ∧ events (Fixtures.run (Fixtures.finishedWith "MAX_TOKENS")) = [Usage 0 0]
  ∧ ¬ (∃ e, events (Fixtures.run (Fixtures.finishedWith "LENGTH")) = [Error e]).
Proof.
  split; [vm_compute; reflexivity |].
  split; [vm_compute; reflexivity |].
  intros [e He]. vm_compute in He. discriminate He.
Qed.

Lemma createMessage_blocked_without_text_witness :
  events (Fixtures.run (Fixtures.finishedWith "OTHER"))
    = [Error (newError "Content generation was blocked for other reasons")]
  ∧ events (Fixtures.run (Fixtures.blockedCandidate "SAFETY"))
    = [Error (newError "[GoogleGenerativeAI Error]: Candidate was blocked due to SAFETY")]
  ∧ ∃ e, events (Fixtures.run (Fixtures.blockedCandidate "SAFETY")) = [Error e].
Proof.
  assert (Fixtures.opened (Fixtures.finishedWith "OTHER")
            = inr (Fixtures.finishedWith "OTHER")) as Hother
    by (vm_compute; reflexivity).
  assert (Fixtures.opened (Fixtures.blockedCandidate "SAFETY")
            = inr (Fixtures.blockedCandidate "SAFETY")) as Hsafety
    by (vm_compute; reflexivity).
  split; [| split].
  - refine (proj1 (proj2 (proj2
             (proj1 (createMessage_blocked_without_text
                       Fixtures.geminiModels Fixtures.geminiDefaultModelId
                       Fixtures.unescapeGeminiContent
                       Fixtures.MessageParam Fixtures.Content
                       Fixtures.convertAnthropicMessageToGemini
                       (Fixtures.backend (Fixtures.finishedWith "OTHER"))
                       Fixtures.handler Fixtures.systemPrompt Fixtures.messages
                       (Fixtures.finishedWith "OTHER") _ Hother eq_refl)
                    [Some EmptyString] _ eq_refl eq_refl))) eq_refl).
    repeat constructor.
  - refine (proj1 (proj2 (createMessage_blocked_without_text
                     Fixtures.geminiModels Fixtures.geminiDefaultModelId
                     Fixtures.unescapeGeminiContent
                     Fixtures.MessageParam Fixtures.Content
                     Fixtures.convertAnthropicMessageToGemini
                     (Fixtures.backend (Fixtures.blockedCandidate "SAFETY"))
                     Fixtures.handler Fixtures.systemPrompt Fixtures.messages
                     (Fixtures.blockedCandidate "SAFETY") _ Hsafety eq_refl))
                  [] [] [] (Fixtures.blockedFrame "SAFETY") _ eq_refl _ eq_refl eq_refl).
    constructor.
  - refine (proj2 (proj2 (createMessage_blocked_without_text
                     Fixtures.geminiModels Fixtures.geminiDefaultModelId
                     Fixtures.unescapeGeminiContent
                     Fixtures.MessageParam Fixtures.Content
                     Fixtures.convertAnthropicMessageToGemini
                     (Fixtures.backend (Fixtures.blockedCandidate "SAFETY"))
                     Fixtures.handler Fixtures.systemPrompt Fixtures.messages
                     (Fixtures.blockedCandidate "SAFETY") _ Hsafety eq_refl))
                  "SAFETY"%string eq_refl _ _).
    + unfold blockingReasons. apply list_elem_of_here.
    + vm_compute; reflexivity.
Defined.

Lemma createMessage_success_usage_last_witness :
  (outcome (Fixtures.run Fixtures.partialUsage) = inr tt
   ∧ events (Fixtures.run Fixtures.partialUsage)
     = [TextChunk "Hel"; TextChunk "lo!"; Usage 0 2]
   ∧ last (events (Fixtures.run Fixtures.partialUsage)) = Some (Usage 0 2)
   ∧ List.filter isUsage (events (Fixtures.run Fixtures.partialUsage)) = [Usage 0 2]
   ∧ ∃ o, last (events (Fixtures.run Fixtures.partialUsage)) = Some (Usage 0 o))
  ∧ ∃ usage, last (events (Fixtures.run Fixtures.scenarioA)) = Some usage
           ∧ List.filter isUsage (events (Fixtures.run Fixtures.scenarioA)) = [usage].
Proof.
  split.
  - assert (Fixtures.opened Fixtures.partialUsage = inr Fixtures.partialUsage)
      as Ho by (vm_compute; reflexivity).
    assert (decodeTo (stream Fixtures.partialUsage)
              [Some "Hel"; Some "lo!"]%string) as Hd by (repeat constructor).
    assert (∀ reason, reason ∈ blockingReasons →
              Some "STOP"%string ≠ Some reason) as Hn.
    { intros reason Hin [= <-]. revert Hin. apply (bool_decide_eq_false_1 _).
      vm_compute; reflexivity. }
    destruct (proj1 (createMessage_success_usage_last
                       Fixtures.geminiModels Fixtures.geminiDefaultModelId
                       Fixtures.unescapeGeminiContent
                       Fixtures.MessageParam Fixtures.Content
                       Fixtures.convertAnthropicMessageToGemini
                       (Fixtures.backend Fixtures.partialUsage)
                       Fixtures.handler Fixtures.systemPrompt Fixtures.messages)
                    Fixtures.partialUsage _ _ Ho Hd eq_refl eq_refl Hn)
      as (Hok & Hev & Hlast & Hfilter & Hprompt & _).
    exact (conj Hok (conj Hev (conj Hlast (conj Hfilter (Hprompt eq_refl))))).
  - assert (outcome (Fixtures.run Fixtures.scenarioA) = inr tt) as Hok
      by (vm_compute; reflexivity).
    destruct (proj2 (createMessage_success_usage_last
                       Fixtures.geminiModels Fixtures.geminiDefaultModelId
                       Fixtures.unescapeGeminiContent
                       Fixtures.MessageParam Fixtures.Content
                       Fixtures.convertAnthropicMessageToGemini
                       (Fixtures.backend Fixtures.scenarioA)
                       Fixtures.handler Fixtures.systemPrompt Fixtures.messages) Hok)
      as (result & texts & r & _ & _ & _ & _ & _ & _ & Hlast & Hfilter).
    eexists. split; [exact Hlast | exact Hfilter].
Defined.

Lemma createMessage_aborts_at_malformed_chunk_witness :
  events (Fixtures.run Fixtures.corrupted)
    = [TextChunk "one"; Error (newError "Failed to parse stream")].
Proof.
  unfold Fixtures.run.
  refine (createMessage_aborts_at_malformed_chunk
            Fixtures.geminiModels Fixtures.geminiDefaultModelId
            Fixtures.unescapeGeminiContent
            Fixtures.MessageParam Fixtures.Content
            Fixtures.convertAnthropicMessageToGemini
            (Fixtures.backend Fixtures.corrupted)
            Fixtures.handler Fixtures.systemPrompt Fixtures.messages Fixtures.corrupted
            [Fixtures.fragment "one"] [Fixtures.fragment "two"] [Some "one"%string]
            Fixtures.malformed (newError "Failed to parse stream")
            _ eq_refl _ eq_refl).
  - vm_compute; reflexivity.
  - repeat constructor.
Defined.

Lemma createMessage_no_empty_text_witness :
  (∀ t, TextChunk t ∈ events (Fixtures.run Fixtures.scenarioA) → t ≠ EmptyString)
  ∧ (∀ pre post c (t : option string) fault resp,
       chunkText c = inr t → truthy t = false →
       Gemini.consumeStream Fixtures.unescapeGeminiContent
         {| stream := pre ++ c :: post; streamFault := fault; response := resp |}
       = Gemini.consumeStream Fixtures.unescapeGeminiContent
           {| stream := pre ++ post; streamFault := fault; response := resp |}).
Proof.
  exact (createMessage_no_empty_text
           Fixtures.geminiModels Fixtures.geminiDefaultModelId
           Fixtures.unescapeGeminiContent
           Fixtures.MessageParam Fixtures.Content
           Fixtures.convertAnthropicMessageToGemini
           (Fixtures.backend Fixtures.scenarioA)
           Fixtures.handler Fixtures.systemPrompt Fixtures.messages
           unescapeGeminiContent_nonempty).
Defined.

Lemma constructor_fails_fast_witness :
  constructor (Fixtures.optionsWith None None)
    = inl (newError "API key is required for Google Gemini")
  ∧ constructor (Fixtures.optionsWith (Some EmptyString) None)
    = inl (newError "API key is required for Google Gemini")
  ∧ constructor (Fixtures.optionsWith (Some "secret"%string) None)
    = inr Fixtures.handler.
Proof.
  split; [| split].
  - exact (proj1 (constructor_fails_fast (Fixtures.optionsWith None None)) eq_refl).
  - exact (proj1 (proj2 (constructor_fails_fast
                           (Fixtures.optionsWith (Some EmptyString) None)))
                 eq_refl).
  - refine (proj2 (proj2 (constructor_fails_fast
                            (Fixtures.optionsWith (Some "secret"%string) None)))
                  "secret"%string eq_refl _).
    discriminate.
Defined.

Lemma getModel_prototype_key_witness :
  Gemini.getModel Fixtures.geminiModels Fixtures.geminiDefaultModelId
    (Fixtures.handlerFor (Some "toString"%string))
    = {| id := "toString"; info := Inherited "toString" |}
  ∧ Gemini.getModel Fixtures.geminiModels Fixtures.geminiDefaultModelId
      (Fixtures.handlerFor (Some "toString"%string))
    ≠ {| id := Fixtures.geminiDefaultModelId;
         info := get Fixtures.geminiModels Fixtures.geminiDefaultModelId |}.
Proof.
  refine (getModel_prototype_key Fixtures.geminiModels Fixtures.geminiDefaultModelId
            (Fixtures.handlerFor (Some "toString"%string)) eq_refl _ _).
  - vm_compute; reflexivity.
  - exists Fixtures.flash. vm_compute; reflexivity.
Defined.

(** The registry-default scenario of the spec. *)
Example getModel_unknown_model_xyz :
  Gemini.getModel Fixtures.geminiModels Fixtures.geminiDefaultModelId
    (Fixtures.handlerFor (Some "unknown-model-xyz"%string))
    = {| id := "gemini-2.0-flash-001"; info := Own Fixtures.flash |}.
Proof. vm_compute. reflexivity. Qed.

End GeminiFacts.

(** ** The retry wrapper *)

Module RetryFacts.
Import Js Stream Retry StreamFacts.

Section Wrapper.

Context (classify : JsError → ErrorKind) (retryAfter : JsError → option Z)
        (jitter : nat → Z) (opts : RetryOptions).

Local Abbreviation retryLoop := (Retry.retryLoop classify retryAfter jitter opts).
Local Abbreviation withRetry := (Retry.withRetry classify retryAfter jitter opts).

(** A run of the loop with a budget ends at some attempt [n]: the caller
    has received the events of that attempt and of no other, and every
    attempt before it failed retryably without having yielded anything. *)
Lemma retryLoop_last_attempt (call : nat → Gen unit) (budget attempt : nat) :
  budget ≠ 0%nat →
  ∃ n, (attempt ≤ n < attempt + budget)%nat
     ∧ attempts (retryLoop call budget attempt) = S n
     ∧ forwarded (retryLoop call budget attempt) = events (call n)
     ∧ length (waits (retryLoop call budget attempt)) = (n - attempt)%nat
     ∧ ∀ j, (attempt ≤ j < n)%nat →
         yielded (call j) = []
         ∧ ∃ e, outcome (call j) = inl e ∧ retryable (classify e) = true.
Proof.
  revert attempt. induction budget as [| budget IH]; intros attempt Hb; [done |].
  cbn [Retry.retryLoop]; cbv zeta.
  assert (∀ fw, fw = events (call attempt) →
    ∃ n, (attempt ≤ n < attempt + S budget)%nat
       ∧ S attempt = S n ∧ fw = events (call n)
       ∧ 0%nat = (n - attempt)%nat
       ∧ ∀ j, (attempt ≤ j < n)%nat →
           yielded (call j) = []
           ∧ ∃ e, outcome (call j) = inl e ∧ retryable (classify e) = true)
    as Hstop.
  { intros fw ->. exists attempt. repeat split; try lia. }
  destruct (outcome (call attempt)) as [e | []] eqn:Ho.
  2: { apply Hstop. unfold events. by rewrite Ho, app_nil_r. }
  destruct (yielded (call attempt)) as [| y ys] eqn:Hy.
  2: { apply Hstop. unfold events. by rewrite Ho, Hy. }
  destruct (retryable (classify e)) eqn:Hr.
  2: { apply Hstop. unfold events. by rewrite Ho, Hy. }
  destruct budget as [| budget'].
  { apply Hstop. unfold events. by rewrite Ho, Hy. }
  destruct (IH (S attempt) ltac:(done)) as (n & Hn & Ha & Hf & Hw & Hj).
  exists n. cbn [forwarded attempts waits length].
  rewrite Ha, Hf, Hw. repeat split; try lia; try done.
  - destruct (decide (j = attempt)) as [-> | Hne]; [done |].
    apply Hj. lia.
  - destruct (decide (j = attempt)) as [-> | Hne]; [by exists e |].
    apply Hj. lia.
Qed.

(** C1.  If an attempt that the wrapper made has yielded at least one event
    and then fails, it is the last attempt and the caller receives its
    events followed by the terminal [Error]; and every attempt that was
    followed by another one had yielded no event. *)
Theorem withRetry_no_retry_after_forward (call : nat → Gen unit) :
  (∀ k e, (k < attempts (withRetry call))%nat →
      yielded (call k) ≠ [] → outcome (call k) = inl e →
      attempts (withRetry call) = S k
      ∧ forwarded (withRetry call) = (toEvent <$> yielded (call k)) ++ [Error e])
  ∧ (∀ j, (S j < attempts (withRetry call))%nat →
      yielded (call j) = []
      ∧ ∃ e, outcome (call j) = inl e ∧ retryable (classify e) = true).
Proof.
  unfold Retry.withRetry.
  destruct (decide (maxAttempts opts = 0%nat)) as [-> | Hb].
  { simpl. split; intros; lia. }
  destruct (retryLoop_last_attempt call (maxAttempts opts) 0 Hb)
    as (n & Hn & -> & -> & _ & Hj).
  split.
  - intros k e Hk Hy Ho.
    destruct (decide (k = n)) as [-> | Hne].
    + split; [done |]. unfold events. by rewrite Ho.
    + destruct (Hj k ltac:(lia)) as [Hnil _]. done.
  - intros j Hlt. apply Hj. lia.
Qed.

End Wrapper.

(** The retry scenario of the spec: two retryable failures before any
    event, then success on the third attempt after two waits. *)
Example retry_then_success :
  Fixtures.retried Fixtures.twoFailuresThenSuccess
    = {| forwarded := [TextChunk "Hel"; TextChunk "lo!"; Usage 5 2];
         attempts := 3; waits := [1000; 2000] |}.
Proof. vm_compute. reflexivity. Qed.

(** The fatal-is-immediate scenario. *)
Example fatal_is_immediate :
  Fixtures.retried (λ _, Fixtures.runRefused Fixtures.unauthenticated)
    = {| forwarded := [Error Fixtures.unauthenticated];
         attempts := 1; waits := [] |}.
Proof. vm_compute. reflexivity. Qed.

(** Scenario C: one text fragment, then a transport fault. *)
Example scenarioC :
  Fixtures.retried (λ _, Fixtures.run Fixtures.dropped)
    = {| forwarded := [TextChunk "partial";
                       Error (mkError "socket hang up" (Some 503))];
         attempts := 1; waits := [] |}.
Proof. vm_compute. reflexivity. Qed.

Lemma withRetry_no_retry_after_forward_witness :
  attempts (Fixtures.retried Fixtures.failureAfterText) = 2%nat
  ∧ forwarded (Fixtures.retried Fixtures.failureAfterText)
    = [TextChunk "partial"; Error (mkError "socket hang up" (Some 503))].
Proof.
  refine (proj1 (withRetry_no_retry_after_forward
                   Fixtures.classify (λ _, None) (λ _, 0) Fixtures.retryOptions
                   Fixtures.failureAfterText)
                1%nat (mkError "socket hang up" (Some 503)) _ _ _).
  - vm_compute. lia.
  - vm_compute. discriminate.
  - vm_compute. reflexivity.
Defined.

End RetryFacts.

(** ** The .clineignore controller *)

Module ClineIgnoreFacts.
Import Js ClineIgnore.

Section Controller.

Context (Ignore : Type) (ignore : Ignore) (add : Ignore → string → Ignore)
        (ignores : Ignore → string → JsError + bool)
        (path_resolve path_relative path_join : string → string → string)
        (toPosix : string → string)
        (fileExistsAtPath : string → JsError + bool)
        (readFile : string → JsError + string).

Local Abbreviation validateAccess :=
  (ClineIgnore.validateAccess Ignore ignores path_resolve path_relative toPosix).
Local Abbreviation filterPaths :=
  (ClineIgnore.filterPaths Ignore ignores path_resolve path_relative toPosix).
Local Abbreviation loadClineIgnore :=
  (ClineIgnore.loadClineIgnore Ignore ignore add path_join fileExistsAtPath readFile).

Implicit Types (this : ClineIgnoreController Ignore) (paths : list string).

(** The pipeline of [filterPaths] is a filter by [validateAccess]. *)
Lemma filterPaths_filter this paths :
  filterPaths this paths = List.filter (validateAccess this) paths.
Proof.
  unfold ClineIgnore.filterPaths, tryCatch.
  induction paths as [| p paths IH]; [reflexivity |].
  rewrite fmap_cons. cbn [List.filter allowed].
  destruct (validateAccess this p); [| exact IH].
  rewrite fmap_cons. cbn [path]. by rewrite IH.
Qed.

Lemma filter_sublist {A : Type} (f : A → bool) (l : list A) :
  sublist (List.filter f l) l.
Proof.
  induction l as [| a l IH]; simpl; [constructor |].
  destruct (f a); by constructor.
Qed.

(** C9.  Without a .clineignore file every path is accessible. *)
Theorem validateAccess_without_ignore_file this (filePath : string) :
  clineIgnoreExists this = false → validateAccess this filePath = true.
Proof. intros H. unfold ClineIgnore.validateAccess. by rewrite H. Qed.

(** A controller that has not loaded anything grants every path. *)
Lemma validateAccess_after_constructor (dir filePath : string) :
  validateAccess (ClineIgnore.constructor Ignore ignore dir) filePath = true.
Proof. reflexivity. Qed.

(** When no .clineignore file is found, loading leaves every path
    accessible. *)
Lemma validateAccess_after_load_without_file this (filePath : string) :
  fileExistsAtPath (path_join (cwd this) ".clineignore") = inr false →
  validateAccess (loadClineIgnore this) filePath = true.
Proof.
  intros H. unfold ClineIgnore.validateAccess, ClineIgnore.loadClineIgnore.
  cbn [cwd]. by rewrite H.
Qed.

(** A path that the matcher refuses with an exception is accessible. *)
Lemma validateAccess_outside_cwd this (filePath : string) (e : JsError) :
  ignores (ignoreInstance this)
    (toPosix (path_relative (cwd this) (path_resolve (cwd this) filePath))) = inl e →
  validateAccess this filePath = true.
Proof.
  intros H. unfold ClineIgnore.validateAccess; cbv zeta. rewrite H.
  by destruct (clineIgnoreExists this).
Qed.

(** C10.  [filterPaths] returns the paths that [validateAccess] grants, in
    the order and with the multiplicity they have in the input. *)
Theorem filterPaths_sublist_of_allowed this paths :
  filterPaths this paths = List.filter (validateAccess this) paths
  ∧ sublist (filterPaths this paths) paths
  ∧ (∀ p, p ∈ filterPaths this paths ↔ p ∈ paths ∧ validateAccess this p = true)
  ∧ (∀ p, count_occ String.string_dec (filterPaths this paths) p
          = if validateAccess this p then count_occ String.string_dec paths p else 0%nat).
Proof.
  rewrite filterPaths_filter. split; [reflexivity |].
  split; [apply filter_sublist |]. split.
  - intros p. by rewrite !list_elem_of_In, filter_In.
  - intros p. induction paths as [| q paths IH]; simpl.
    + by destruct (validateAccess this p).
    + destruct (String.string_dec q p) as [-> | Hne].
      * destruct (validateAccess this p) eqn:Hp; simpl.
        -- destruct (String.string_dec p p); [| done]. by rewrite IH.
        -- exact IH.
      * destruct (validateAccess this q); simpl; [| exact IH].
        destruct (String.string_dec q p); [done | exact IH].
Qed.

End Controller.

Example filterPaths_sample :
  Fixtures.filtered true [".env"; "a.ts"; ".env"; "b.ts"; "a.ts"; "../c"]%string
    = ["a.ts"; "b.ts"; "a.ts"; "../c"]%string.
Proof. vm_compute. reflexivity. Qed.

Lemma validateAccess_without_ignore_file_witness :
  Fixtures.validate false ".env" = true.
Proof.
  exact (validateAccess_without_ignore_file (list string) Fixtures.listIgnores
           (λ _ p, p) (λ _ p, p) (λ p, p) (Fixtures.controller false) ".env" eq_refl).
Defined.

End ClineIgnoreFacts.

(** ** More on the Gemini handler *)

Module GeminiMore.
Import Js Stream Gemini StreamFacts GeminiFacts.

Lemma filter_text_then_terminal (ts : list string) (ev : StreamEvent) :
  isTerminal ev = true →
  List.filter isText ((TextChunk <$> ts) ++ [ev]) = TextChunk <$> ts.
Proof.
  intros Hev. rewrite List.filter_app.
  assert (List.filter isText [ev] = []) as -> by (by destruct ev).
  rewrite app_nil_r.
  induction ts as [| t ts IH]; [reflexivity |].
  rewrite fmap_cons. simpl. by rewrite IH.
Qed.

Lemma has_property_get {A : Type} (k : string) (obj : gmap string A) :
  has_property k obj = true → get obj k ≠ Undefined.
Proof.
  unfold has_property, get.
  destruct (obj !! k) as [a |]; [done |].
  rewrite (bool_decide_eq_false_2 (is_Some None)) by (by intros [? ?]).
  simpl. by intros ->.
Qed.

Section Lookup.

Context (geminiModels : gmap string ModelInfo) (geminiDefaultModelId : string).

Local Abbreviation getModel := (Gemini.getModel geminiModels geminiDefaultModelId).
Local Abbreviation defaultModel :=
  {| id := geminiDefaultModelId; info := get geminiModels geminiDefaultModelId |}.

(** The two ways [getModel] returns. *)
Lemma getModel_cases (this : GeminiHandler) :
  getModel this = defaultModel
  ∨ ∃ m, apiModelId (options this) = Some m ∧ m ≠ EmptyString
       ∧ has_property m geminiModels = true
       ∧ getModel this = {| id := m; info := get geminiModels m |}.
Proof.
  unfold Gemini.getModel.
  destruct (apiModelId (options this)) as [m |] eqn:Hm; [| by left].
  destruct (truthy (Some m)) eqn:Ht; [| by left].
  destruct (has_property m geminiModels) eqn:Hp; [| by left].
  right. exists m. repeat split; try done.
  intros ->. discriminate Ht.
Qed.

(** X8.  When the default identifier is in the catalog, the model that
    [getModel] returns is always a property of the catalog object: its
    [info] is what the catalog holds under the returned [id], and is never
    undefined. *)
Theorem getModel_info_defined (this : GeminiHandler) :
  is_Some (geminiModels !! geminiDefaultModelId) →
  has_property (id (getModel this)) geminiModels = true
  ∧ info (getModel this) = get geminiModels (id (getModel this))
  ∧ info (getModel this) ≠ Undefined.
Proof.
  intros Hdef.
  assert (has_property geminiDefaultModelId geminiModels = true) as Hd.
  { unfold has_property. by rewrite (bool_decide_eq_true_2 _ Hdef). }
  destruct (getModel_cases this) as [-> | (m & _ & _ & Hp & ->)]; simpl.
  - repeat split; [done | by apply has_property_get].
  - repeat split; [done | by apply has_property_get].
Qed.

(** X9.  For a non-empty identifier that is not the name of a member of
    [Object.prototype], the lookup is the catalog lookup with the default
    as fallback. *)
Theorem getModel_outside_prototype (this : GeminiHandler) (m : string) :
  apiModelId (options this) = Some m → m ≠ EmptyString →
  m ∉ objectPrototypeKeys →
  getModel this = match geminiModels !! m with
                  | Some d => {| id := m; info := Own d |}
                  | None => defaultModel
                  end.
Proof.
  intros Hm Hne Hp.
  destruct (geminiModels !! m) as [d |] eqn:Hd.
  - by apply getModel_known.
  - by apply getModel_unknown with m.
Qed.

End Lookup.

(** X10.  A handler that the constructor returns holds the options it was
    given and a non-empty API key, the one of the options. *)
Theorem constructor_handler_has_key (o : ApiHandlerOptions) (h : GeminiHandler) :
  constructor o = inr h →
  ∃ k, geminiApiKey o = Some k ∧ k ≠ EmptyString
     ∧ apiKey (client h) = k ∧ options h = o.
Proof.
  unfold constructor.
  destruct (geminiApiKey o) as [k |] eqn:Hk; simpl; [| discriminate].
  case_bool_decide as Hne; simpl; [discriminate |].
  intros [= <-]. exists k. repeat split; done.
Qed.

Section Handler.

Context (geminiModels : gmap string ModelInfo) (geminiDefaultModelId : string)
        (unescapeGeminiContent : string → string)
        (MessageParam Content : Type)
        (convertAnthropicMessageToGemini : MessageParam → Content)
        (generateContentStream :
           GoogleGenerativeAI → ModelParams → GenerateContentRequest Content →
           JsError + GenerateContentStreamResult).

Local Abbreviation getModel := (Gemini.getModel geminiModels geminiDefaultModelId).
Local Abbreviation forAwait := (Gemini.forAwait unescapeGeminiContent).
Local Abbreviation consumeStream := (Gemini.consumeStream unescapeGeminiContent).
Local Abbreviation openStream :=
  (Gemini.openStream geminiModels geminiDefaultModelId MessageParam Content
     convertAnthropicMessageToGemini generateContentStream).
Local Abbreviation createMessage :=
  (Gemini.createMessage geminiModels geminiDefaultModelId unescapeGeminiContent
     MessageParam Content convertAnthropicMessageToGemini generateContentStream).

Implicit Types (this : GeminiHandler) (systemPrompt : string)
  (messages : list MessageParam) (result : GenerateContentStreamResult)
  (texts : list (option string)).

(** With the default identifier in the catalog, building the request does
    not fail: opening the stream is the backend call. *)
Lemma openStream_backend_call this systemPrompt messages :
  is_Some (geminiModels !! geminiDefaultModelId) →
  ∃ maxT,
    infoMaxTokens (info (getModel this)) = inr maxT
    ∧ openStream this systemPrompt messages
      = generateContentStream (client this)
          {| model := id (getModel this); systemInstruction := systemPrompt |}
          {| contents := convertAnthropicMessageToGemini <$> messages;
             generationConfig := {| maxOutputTokens := maxT; temperature := 0 |} |}.
Proof.
  intros Hdef. unfold Gemini.openStream; cbv zeta.
  assert (info (getModel this) ≠ Undefined) as Hi.
  { destruct (getModel_cases geminiModels geminiDefaultModelId this)
      as [-> | (m & _ & _ & Hp & ->)]; simpl.
    - apply has_property_get. unfold has_property.
      by rewrite (bool_decide_eq_true_2 _ Hdef).
    - by apply has_property_get. }
  destruct (info (getModel this)) as [d | nm |]; [| | done].
  - exists (maxTokens d). by split.
  - exists None. by split.
Qed.

(** X6.  With the default identifier in the catalog, [createMessage] sends
    the backend one request: for the model [getModel] resolves, with the
    system prompt as given, the converted messages in their order, the
    temperature 0, and the output limit of the resolved descriptor. *)
Theorem openStream_request this systemPrompt messages :
  is_Some (geminiModels !! geminiDefaultModelId) →
  ∃ maxT,
    openStream this systemPrompt messages
      = generateContentStream (client this)
          {| model := id (getModel this); systemInstruction := systemPrompt |}
          {| contents := convertAnthropicMessageToGemini <$> messages;
             generationConfig := {| maxOutputTokens := maxT; temperature := 0 |} |}
    ∧ (∀ d, info (getModel this) = Own d → maxT = maxTokens d)
    ∧ (∀ nm, info (getModel this) = Inherited nm → maxT = None).
Proof.
  intros Hdef.
  destruct (openStream_backend_call this systemPrompt messages Hdef)
    as (maxT & Hmax & Ho).
  exists maxT. split; [exact Ho |].
  split; intros ? Hi; rewrite Hi in Hmax; simpl in Hmax; congruence.
Qed.

(** X5.  When the backend rejects every request with [e], the event
    sequence is that exception alone, as the [Error]. *)
Theorem createMessage_request_rejected this systemPrompt messages (e : JsError) :
  is_Some (geminiModels !! geminiDefaultModelId) →
  (∀ params request, generateContentStream (client this) params request = inl e) →
  events (createMessage this systemPrompt messages) = [Error e].
Proof.
  intros Hdef Hrej.
  destruct (openStream_backend_call this systemPrompt messages Hdef)
    as (maxT & _ & Ho).
  rewrite Hrej in Ho.
  by rewrite (createMessage_refused _ _ _ _ _ _ _ _ _ _ _ Ho).
Qed.

(** The events of a run over an opened stream whose chunks all decode. *)
Lemma createMessage_decoded_events this systemPrompt messages result texts :
  openStream this systemPrompt messages = inr result →
  decodeTo (stream result) texts →
  ∃ ev, isTerminal ev = true
      ∧ events (createMessage this systemPrompt messages)
        = (TextChunk <$> (unescapeGeminiContent <$> presentTexts texts)) ++ [ev].
Proof.
  intros Ho Hd.
  rewrite (createMessage_opened _ _ _ _ _ _ _ _ _ _ _ Ho).
  destruct (streamFault result) as [e |] eqn:Hf.
  - exists (Error e). split; [done |].
    by rewrite (consumeStream_fault _ _ _ _ Hd Hf), events_fail, toEvent_text.
  - rewrite (consumeStream_decoded _ _ _ Hd Hf).
    destruct (finishStream_cases result) as [[e ->] | (r & _ & _ & ->)].
    + exists (Error e). split; [done |].
      unfold throw, yielded, outcome; cbn [fst snd].
      by rewrite app_nil_r, events_fail, toEvent_text.
    + eexists (Usage _ _). split; [done |].
      unfold yield, yielded, outcome; cbn [fst snd].
      by rewrite events_ok, fmap_app, toEvent_text.
Qed.

(** X1.  When every chunk of the stream decodes, the text events of the
    run are the unescaped non-empty texts of all fragments, in the order
    received, whatever the stream ends with. *)
Theorem createMessage_delivers_all_text this systemPrompt messages result texts :
  openStream this systemPrompt messages = inr result →
  decodeTo (stream result) texts →
  List.filter isText (events (createMessage this systemPrompt messages))
    = TextChunk <$> (unescapeGeminiContent <$> presentTexts texts).
Proof.
  intros Ho Hd.
  destruct (createMessage_decoded_events _ _ _ _ _ Ho Hd) as (ev & Hev & ->).
  by apply filter_text_then_terminal.
Qed.

(** X2.  A response that carries the finish reason SAFETY, RECITATION or
    OTHER: the run reports no [Usage] and its last event is an [Error],
    whatever text was streamed and however the stream went.  When every
    chunk decoded and the stream ended normally, the events are the texts
    followed by the [Error] with the message of that very reason. *)
Theorem createMessage_blocked_after_text this systemPrompt messages result
    (r : GenerateContentResponse) :
  openStream this systemPrompt messages = inr result →
  response result = inr (Some r) →
  (∀ texts, decodeTo (stream result) texts → streamFault result = None →
     (finishReasonOf r = Some "SAFETY"%string →
        events (createMessage this systemPrompt messages)
          = (TextChunk <$> (unescapeGeminiContent <$> presentTexts texts))
              ++ [Error (newError
                    "Content generation was blocked for safety reasons")])
     ∧ (finishReasonOf r = Some "RECITATION"%string →
        events (createMessage this systemPrompt messages)
          = (TextChunk <$> (unescapeGeminiContent <$> presentTexts texts))
              ++ [Error (newError
                    "Content generation was blocked due to potential copyright issues")])
     ∧ (finishReasonOf r = Some "OTHER"%string →
        events (createMessage this systemPrompt messages)
          = (TextChunk <$> (unescapeGeminiContent <$> presentTexts texts))
              ++ [Error (newError
                    "Content generation was blocked for other reasons")]))
  ∧ (∀ reason, finishReasonOf r = Some reason → reason ∈ blockingReasons →
       existsb isUsage (events (createMessage this systemPrompt messages)) = false
       ∧ ∃ e, last (events (createMessage this systemPrompt messages))
                = Some (Error e)).
Proof.
  intros Ho Hr.
  rewrite (createMessage_opened _ _ _ _ _ _ _ _ _ _ _ Ho).
  split.
  - intros texts Hd Hf.
    rewrite (consumeStream_decoded _ _ _ Hd Hf).
    unfold finishStream. rewrite Hr, bind_await_ok.
    repeat split; intros ->; simpl;
      by rewrite app_nil_r, events_fail, toEvent_text.
  - intros reason Hfin Hin.
    destruct (consumeStream_blocked_fails unescapeGeminiContent
                result r reason Hr Hfin Hin) as (texts & e & ->).
    rewrite events_fail, toEvent_text. split.
    + rewrite existsb_app, existsb_text by done. reflexivity.
    + exists e. apply last_snoc.
Qed.

(** X3.  When the connection breaks after the fragments, the fault is the
    [Error], unchanged, after the texts; the response is not looked at. *)
Theorem createMessage_stream_fault this systemPrompt messages result texts
    (e : JsError) :
  openStream this systemPrompt messages = inr result →
  decodeTo (stream result) texts → streamFault result = Some e →
  events (createMessage this systemPrompt messages)
    = (TextChunk <$> (unescapeGeminiContent <$> presentTexts texts)) ++ [Error e].
Proof.
  intros Ho Hd Hf.
  rewrite (createMessage_opened _ _ _ _ _ _ _ _ _ _ _ Ho).
  by rewrite (consumeStream_fault _ _ _ _ Hd Hf), events_fail, toEvent_text.
Qed.

(** X4.  After a stream that ended normally, a response that is missing
    gives the [Error] "No response received from Gemini API", and a
    response promise that rejects gives its exception as the [Error]; the
    texts come first in both cases. *)
Theorem createMessage_response_missing this systemPrompt messages result texts :
  openStream this systemPrompt messages = inr result →
  decodeTo (stream result) texts → streamFault result = None →
  (response result = inr None →
     events (createMessage this systemPrompt messages)
       = (TextChunk <$> (unescapeGeminiContent <$> presentTexts texts))
           ++ [Error (newError "No response received from Gemini API")])
  ∧ (∀ e, response result = inl e →
     events (createMessage this systemPrompt messages)
       = (TextChunk <$> (unescapeGeminiContent <$> presentTexts texts))
           ++ [Error e]).
Proof.
  intros Ho Hd Hf.
  rewrite (createMessage_opened _ _ _ _ _ _ _ _ _ _ _ Ho).
  rewrite (consumeStream_decoded _ _ _ Hd Hf).
  unfold finishStream. split.
  - intros ->. rewrite bind_await_ok. simpl.
    by rewrite app_nil_r, events_fail, toEvent_text.
  - intros e ->. simpl.
    by rewrite app_nil_r, events_fail, toEvent_text.
Qed.

(** X7.  The test of [hasError] after the loop never succeeds: the run
    over an opened stream is the loop followed by the statements after the
    test. *)
Theorem consumeStream_hasError_dead result :
  consumeStream result
    = (forAwait (stream result) (streamFault result) false
         ≫= λ _, finishStream result).
Proof.
  unfold Gemini.consumeStream.
  destruct (forAwait (stream result) (streamFault result) false)
    as [ys [e | b]] eqn:Hloop; [reflexivity |].
  assert (b = false) as ->.
  { apply (forAwait_flag unescapeGeminiContent
             (stream result) (streamFault result) false b).
    by rewrite Hloop. }
  reflexivity.
Qed.

(** X11.  A run that is consumed to its end consists of text events
    followed by exactly one terminal event, which is its last event. *)
Theorem createMessage_full_run_one_terminal this systemPrompt messages :
  ∃ (ts : list string) (ev : StreamEvent),
    events (createMessage this systemPrompt messages) = (TextChunk <$> ts) ++ [ev]
    ∧ isTerminal ev = true
    ∧ List.filter isTerminal (events (createMessage this systemPrompt messages)) = [ev]
    ∧ last (events (createMessage this systemPrompt messages)) = Some ev.
Proof.
  destruct (createMessage_events_shape geminiModels geminiDefaultModelId
              unescapeGeminiContent MessageParam Content
              convertAnthropicMessageToGemini generateContentStream
              this systemPrompt messages) as (texts & ev & -> & Hev).
  exists (unescapeGeminiContent <$> presentTexts texts), ev.
  repeat split; [done | | apply last_snoc].
  rewrite List.filter_app, filter_terminal_text. simpl. by rewrite Hev.
Qed.

End Handler.

Lemma getModel_info_defined_witness :
  has_property
    (id (Gemini.getModel Fixtures.geminiModels Fixtures.geminiDefaultModelId
           (Fixtures.handlerFor (Some "toString"%string))))
    Fixtures.geminiModels = true
  ∧ info (Gemini.getModel Fixtures.geminiModels Fixtures.geminiDefaultModelId
            (Fixtures.handlerFor (Some "toString"%string)))
    = get Fixtures.geminiModels
        (id (Gemini.getModel Fixtures.geminiModels Fixtures.geminiDefaultModelId
               (Fixtures.handlerFor (Some "toString"%string))))
  ∧ info (Gemini.getModel Fixtures.geminiModels Fixtures.geminiDefaultModelId
            (Fixtures.handlerFor (Some "toString"%string)))
    ≠ Undefined.
Proof.
  refine (getModel_info_defined Fixtures.geminiModels Fixtures.geminiDefaultModelId
            (Fixtures.handlerFor (Some "toString"%string)) _).
  exists Fixtures.flash. vm_compute; reflexivity.
Defined.

Lemma getModel_outside_prototype_witness :
  Gemini.getModel Fixtures.geminiModels Fixtures.geminiDefaultModelId
    (Fixtures.handlerFor (Some "gemini-1.5-pro-002"%string))
  = match Fixtures.geminiModels !! "gemini-1.5-pro-002"%string with
    | Some d => {| id := "gemini-1.5-pro-002"; info := Own d |}
    | None => {| id := Fixtures.geminiDefaultModelId;
                 info := get Fixtures.geminiModels Fixtures.geminiDefaultModelId |}
    end.
Proof.
  refine (getModel_outside_prototype Fixtures.geminiModels
            Fixtures.geminiDefaultModelId
            (Fixtures.handlerFor (Some "gemini-1.5-pro-002"%string))
            "gemini-1.5-pro-002" eq_refl _ _).
  - discriminate.
  - apply (bool_decide_eq_false_1 _). vm_compute; reflexivity.
Defined.

Lemma constructor_handler_has_key_witness :
  ∃ k, geminiApiKey (Fixtures.optionsWith (Some "secret"%string) None) = Some k
     ∧ k ≠ EmptyString
     ∧ apiKey (client Fixtures.handler) = k
     ∧ options Fixtures.handler = Fixtures.optionsWith (Some "secret"%string) None.
Proof.
  exact (constructor_handler_has_key
           (Fixtures.optionsWith (Some "secret"%string) None) Fixtures.handler
           eq_refl).
Defined.

Lemma openStream_request_witness :
  ∃ maxT,
    Fixtures.opened Fixtures.scenarioA
      = Fixtures.backend Fixtures.scenarioA (client Fixtures.handler)
          {| model := id (Gemini.getModel Fixtures.geminiModels
                            Fixtures.geminiDefaultModelId Fixtures.handler);
             systemInstruction := Fixtures.systemPrompt |}
          {| contents := Fixtures.convertAnthropicMessageToGemini <$> Fixtures.messages;
             generationConfig := {| maxOutputTokens := maxT; temperature := 0 |} |}
    ∧ (∀ d, info (Gemini.getModel Fixtures.geminiModels
                    Fixtures.geminiDefaultModelId Fixtures.handler) = Own d →
            maxT = maxTokens d)
    ∧ (∀ nm, info (Gemini.getModel Fixtures.geminiModels
                     Fixtures.geminiDefaultModelId Fixtures.handler) = Inherited nm →
             maxT = None).
Proof.
  refine (openStream_request Fixtures.geminiModels Fixtures.geminiDefaultModelId
            Fixtures.MessageParam Fixtures.Content
            Fixtures.convertAnthropicMessageToGemini
            (Fixtures.backend Fixtures.scenarioA)
            Fixtures.handler Fixtures.systemPrompt Fixtures.messages _).
  exists Fixtures.flash. vm_compute; reflexivity.
Defined.

Lemma createMessage_request_rejected_witness :
  events (Fixtures.runRefused Fixtures.rateLimited) = [Error Fixtures.rateLimited].
Proof.
  refine (createMessage_request_rejected
            Fixtures.geminiModels Fixtures.geminiDefaultModelId
            Fixtures.unescapeGeminiContent Fixtures.MessageParam Fixtures.Content
            Fixtures.convertAnthropicMessageToGemini (λ _ _ _, inl Fixtures.rateLimited)
            Fixtures.handler Fixtures.systemPrompt Fixtures.messages
            Fixtures.rateLimited _ (λ _ _, eq_refl)).
  exists Fixtures.flash. vm_compute; reflexivity.
Defined.

Lemma createMessage_delivers_all_text_witness :
  List.filter isText (events (Fixtures.run Scenarios.blockedAfterText))
    = [TextChunk "Once"; TextChunk " upon"].
Proof.
  refine (createMessage_delivers_all_text
            Fixtures.geminiModels Fixtures.geminiDefaultModelId
            Fixtures.unescapeGeminiContent Fixtures.MessageParam Fixtures.Content
            Fixtures.convertAnthropicMessageToGemini
            (Fixtures.backend Scenarios.blockedAfterText)
            Fixtures.handler Fixtures.systemPrompt Fixtures.messages
            Scenarios.blockedAfterText
            [Some "Once"; Some EmptyString; Some " upon"]%string _ _).
  - vm_compute; reflexivity.
  - repeat constructor.
Defined.

Lemma createMessage_blocked_after_text_witness :
  events (Fixtures.run Scenarios.otherAfterText)
    = [TextChunk "Once"; TextChunk " upon";
       Error (newError "Content generation was blocked for other reasons")]
  ∧ existsb isUsage (events (Fixtures.run Scenarios.safetyAfterText)) = false
  ∧ ∃ e, last (events (Fixtures.run Scenarios.safetyAfterText)) = Some (Error e).
Proof.
  split.
  - refine (proj2 (proj2
             (proj1 (createMessage_blocked_after_text
                       Fixtures.geminiModels Fixtures.geminiDefaultModelId
                       Fixtures.unescapeGeminiContent Fixtures.MessageParam
                       Fixtures.Content Fixtures.convertAnthropicMessageToGemini
                       (Fixtures.backend Scenarios.otherAfterText)
                       Fixtures.handler Fixtures.systemPrompt Fixtures.messages
                       Scenarios.otherAfterText _ _ eq_refl)
                    [Some "Once"; Some " upon"; Some EmptyString]%string _ eq_refl))
             eq_refl).
    + vm_compute; reflexivity.
    + repeat constructor.
  - refine (proj2 (createMessage_blocked_after_text
                     Fixtures.geminiModels Fixtures.geminiDefaultModelId
                     Fixtures.unescapeGeminiContent Fixtures.MessageParam
                     Fixtures.Content Fixtures.convertAnthropicMessageToGemini
                     (Fixtures.backend Scenarios.safetyAfterText)
                     Fixtures.handler Fixtures.systemPrompt Fixtures.messages
                     Scenarios.safetyAfterText _ _ eq_refl)
                  "SAFETY"%string eq_refl _).
    + vm_compute; reflexivity.
    + unfold blockingReasons. apply list_elem_of_here.
Defined.

Lemma createMessage_stream_fault_witness :
  events (Fixtures.run Fixtures.dropped)
    = [TextChunk "partial"; Error (mkError "socket hang up" (Some 503))].
Proof.
  refine (createMessage_stream_fault
            Fixtures.geminiModels Fixtures.geminiDefaultModelId
            Fixtures.unescapeGeminiContent Fixtures.MessageParam Fixtures.Content
            Fixtures.convertAnthropicMessageToGemini
            (Fixtures.backend Fixtures.dropped)
            Fixtures.handler Fixtures.systemPrompt Fixtures.messages
            Fixtures.dropped [Some "partial"%string]
            (mkError "socket hang up" (Some 503)) _ _ eq_refl).
  - vm_compute; reflexivity.
  - repeat constructor.
Defined.

Lemma createMessage_response_missing_witness :
  events (Fixtures.run Scenarios.withoutResponse)
    = [TextChunk "Hel"; Error (newError "No response received from Gemini API")].
Proof.
  refine (proj1 (createMessage_response_missing
                   Fixtures.geminiModels Fixtures.geminiDefaultModelId
                   Fixtures.unescapeGeminiContent Fixtures.MessageParam
                   Fixtures.Content Fixtures.convertAnthropicMessageToGemini
                   (Fixtures.backend Scenarios.withoutResponse)
                   Fixtures.handler Fixtures.systemPrompt Fixtures.messages
                   Scenarios.withoutResponse [Some "Hel"%string] _ _ eq_refl)
                eq_refl).
  - vm_compute; reflexivity.
  - repeat constructor.
Defined.

End GeminiMore.

(** ** More on the .clineignore controller *)

Module ClineIgnoreMore.
Import Js ClineIgnore ClineIgnoreFacts.

Lemma filter_filter_same {A : Type} (f : A → bool) (l : list A) :
  List.filter f (List.filter f l) = List.filter f l.
Proof.
  induction l as [| a l IH]; [reflexivity |].
  simpl. destruct (f a) eqn:Ha; [| exact IH].
  simpl. by rewrite Ha, IH.
Qed.

Lemma filter_all {A : Type} (f : A → bool) (l : list A) :
  (∀ a, f a = true) → List.filter f l = l.
Proof.
  intros Hf. induction l as [| a l IH]; [reflexivity |].
  simpl. by rewrite Hf, IH.
Qed.

Section Controller.

Context (Ignore : Type) (ignore : Ignore) (add : Ignore → string → Ignore)
        (ignores : Ignore → string → JsError + bool)
        (path_resolve path_relative path_join : string → string → string)
        (toPosix : string → string)
        (fileExistsAtPath : string → JsError + bool)
        (readFile : string → JsError + string).

Local Abbreviation validateAccess :=
  (ClineIgnore.validateAccess Ignore ignores path_resolve path_relative toPosix).
Local Abbreviation filterPaths :=
  (ClineIgnore.filterPaths Ignore ignores path_resolve path_relative toPosix).
Local Abbreviation loadClineIgnore :=
  (ClineIgnore.loadClineIgnore Ignore ignore add path_join fileExistsAtPath readFile).
Local Abbreviation constructor := (ClineIgnore.constructor Ignore ignore).

Implicit Types (this : ClineIgnoreController Ignore) (paths : list string).

Lemma loadClineIgnore_cwd this : cwd (loadClineIgnore this) = cwd this.
Proof.
  unfold ClineIgnore.loadClineIgnore; cbn [cwd].
  destruct (fileExistsAtPath _) as [e | [|]]; [reflexivity | | reflexivity].
  by destruct (readFile _).
Qed.

(** Loading looks at the working directory and, when the existence check
    throws, at the flag; it does not look at the patterns held before. *)
Lemma loadClineIgnore_same this this' :
  cwd this = cwd this' → clineIgnoreExists this = clineIgnoreExists this' →
  loadClineIgnore this = loadClineIgnore this'.
Proof.
  intros Hc He. unfold ClineIgnore.loadClineIgnore; cbn [cwd clineIgnoreExists].
  by rewrite Hc, He.
Qed.

Lemma loadClineIgnore_twice this :
  loadClineIgnore (loadClineIgnore this) = loadClineIgnore this.
Proof.
  unfold ClineIgnore.loadClineIgnore at 2; cbn [cwd].
  destruct (fileExistsAtPath (path_join (cwd this) ".clineignore"))
    as [e | [|]] eqn:Hex.
  - unfold ClineIgnore.loadClineIgnore; cbn [cwd clineIgnoreExists]. by rewrite Hex.
  - destruct (readFile (path_join (cwd this) ".clineignore")) as [e | content] eqn:Hrd;
      unfold ClineIgnore.loadClineIgnore;
      cbn [cwd clineIgnoreExists ignoreInstance]; by rewrite Hex, Hrd.
  - unfold ClineIgnore.loadClineIgnore; cbn [cwd clineIgnoreExists]. by rewrite Hex.
Qed.

(** X12.  Loading again and again against an unchanged file system, each
    load running to its end before the next, leaves the controller as one
    load does: patterns do not pile up. *)
Theorem loadClineIgnore_idempotent this (n : nat) :
  Nat.iter (S n) loadClineIgnore this = loadClineIgnore this.
Proof.
  induction n as [| n IH]; [reflexivity |].
  change (Nat.iter (S (S n)) loadClineIgnore this)
    with (loadClineIgnore (Nat.iter (S n) loadClineIgnore this)).
  rewrite IH. apply loadClineIgnore_twice.
Qed.

(** X13.  When the existence check answers, the loaded controller is
    determined by the working directory and the file system alone: neither
    the patterns nor the flag held before survive. *)
Theorem loadClineIgnore_ignores_history this this' (b : bool) :
  cwd this = cwd this' →
  fileExistsAtPath (path_join (cwd this) ".clineignore") = inr b →
  loadClineIgnore this = loadClineIgnore this'
  ∧ clineIgnoreExists (loadClineIgnore this) = b.
Proof.
  intros Hc Hex. unfold ClineIgnore.loadClineIgnore; cbn [cwd clineIgnoreExists].
  rewrite <- Hc, Hex. destruct b; [| done].
  by destruct (readFile _).
Qed.

(** X14.  After construction and one load the flag is set exactly when the
    existence check answers that the file is there; a check that throws
    leaves it unset. *)
Theorem initialize_exists_iff (dir : string) :
  clineIgnoreExists (loadClineIgnore (constructor dir)) = true
  ↔ fileExistsAtPath (path_join dir ".clineignore") = inr true.
Proof.
  unfold ClineIgnore.loadClineIgnore, ClineIgnore.constructor;
    cbn [cwd clineIgnoreExists].
  destruct (fileExistsAtPath (path_join dir ".clineignore")) as [e | [|]].
  - split; discriminate.
  - split; [done |]. intros _. by destruct (readFile _).
  - split; discriminate.
Qed.

(** X15.  Access is denied only when a .clineignore exists and the matcher
    answers, without throwing, that the normalised path is ignored. *)
Theorem validateAccess_denied_iff this (filePath : string) :
  validateAccess this filePath = false
  ↔ clineIgnoreExists this = true
    ∧ ignores (ignoreInstance this)
        (toPosix (path_relative (cwd this) (path_resolve (cwd this) filePath)))
      = inr true.
Proof.
  unfold ClineIgnore.validateAccess, tryCatch; cbv zeta.
  destruct (clineIgnoreExists this); simpl.
  - destruct (ignores _ _) as [e | [|]]; simpl; split;
      try done; intros [_ ?]; done.
  - split; [done | intros [? _]; done].
Qed.

(** X16.  Filtering a filtered list changes nothing. *)
Theorem filterPaths_idempotent this paths :
  filterPaths this (filterPaths this paths) = filterPaths this paths.
Proof. rewrite !filterPaths_filter. apply filter_filter_same. Qed.

(** X17.  Filtering a concatenation is filtering its parts, and the result
    is never longer than the input. *)
Theorem filterPaths_app this paths paths' :
  filterPaths this (paths ++ paths')
    = filterPaths this paths ++ filterPaths this paths'
  ∧ (length (filterPaths this paths) ≤ length paths)%nat.
Proof.
  rewrite !filterPaths_filter. split; [apply List.filter_app |].
  apply List.filter_length_le.
Qed.

(** X18.  After a load that finds no .clineignore, [filterPaths] returns
    its input unchanged. *)
Theorem filterPaths_after_load_without_file this paths :
  fileExistsAtPath (path_join (cwd this) ".clineignore") = inr false →
  filterPaths (loadClineIgnore this) paths = paths.
Proof.
  intros Hex. rewrite filterPaths_filter. apply filter_all.
  intros p. by apply validateAccess_after_load_without_file.
Qed.

End Controller.

Section Lifecycle.

Import ClineIgnoreLifecycle.

Context (Ignore : Type) (ignore : Ignore) (add : Ignore → string → Ignore)
        (path_join : string → string → string)
        (fileExistsAtPath : string → JsError + bool)
        (readFile : string → JsError + string).

Local Abbreviation constructor := (ClineIgnoreLifecycle.constructor Ignore ignore).
Local Abbreviation initialize :=
  (ClineIgnoreLifecycle.initialize Ignore ignore add path_join fileExistsAtPath readFile).
Local Abbreviation onWatcherEvent :=
  (ClineIgnoreLifecycle.onWatcherEvent Ignore ignore add path_join
     fileExistsAtPath readFile).
Local Abbreviation dispose := (ClineIgnoreLifecycle.dispose Ignore).

Lemma onWatcherEvent_disposables (ev : WatcherEvent) (this : Controller Ignore) :
  disposables (onWatcherEvent ev this) = disposables this.
Proof. by destruct ev. Qed.

Lemma foldl_onWatcherEvent_disposables (evs : list WatcherEvent)
    (this : Controller Ignore) :
  disposables (foldl (λ c ev, onWatcherEvent ev c) this evs) = disposables this.
Proof.
  revert this. induction evs as [| ev evs IH]; intros this; [reflexivity |].
  simpl. by rewrite IH, onWatcherEvent_disposables.
Qed.

(** X19.  Whatever watcher events a controller has handled since its
    construction and initialisation, [dispose] releases the three
    subscriptions and the watcher, each once, keeps the access state and
    leaves no disposable: a second [dispose] releases nothing. *)
Theorem dispose_releases_watcher (dir : string) (evs : list WatcherEvent) :
  let this := foldl (λ c ev, onWatcherEvent ev c) (initialize (constructor dir)) evs in
  (dispose this).1 = [OnDidChange; OnDidCreate; OnDidDelete; FileSystemWatcher]
  ∧ base (dispose this).2 = base this
  ∧ (dispose (dispose this).2).1 = [].
Proof.
  cbv zeta. unfold ClineIgnoreLifecycle.dispose; cbn [fst snd base disposables].
  by rewrite foldl_onWatcherEvent_disposables.
Qed.

End Lifecycle.

Lemma loadClineIgnore_ignores_history_witness :
  Scenarios.load (Fixtures.controller false) = Scenarios.load (Fixtures.controller true)
  ∧ clineIgnoreExists (Scenarios.load (Fixtures.controller false)) = true.
Proof.
  refine (loadClineIgnore_ignores_history (list string) [] Scenarios.add
            Scenarios.path_join Scenarios.fileExistsAtPath Scenarios.readFile
            (Fixtures.controller false) (Fixtures.controller true) true eq_refl _).
  vm_compute; reflexivity.
Defined.

Lemma filterPaths_after_load_without_file_witness :
  ClineIgnore.filterPaths (list string) Fixtures.listIgnores
    (λ _ p, p) (λ _ p, p) (λ p, p)
    (ClineIgnore.loadClineIgnore (list string) [] Scenarios.add Scenarios.path_join
       (λ _, inr false) Scenarios.readFile (Fixtures.controller true))
    [".env"; "a.ts"]%string
  = [".env"; "a.ts"]%string.
Proof.
  exact (filterPaths_after_load_without_file (list string) [] Scenarios.add
           Fixtures.listIgnores (λ _ p, p) (λ _ p, p) Scenarios.path_join (λ p, p)
           (λ _, inr false) Scenarios.readFile
           (Fixtures.controller true) [".env"; "a.ts"]%string eq_refl).
Defined.

(** A loaded .clineignore hides the listed file and nothing else. *)
Example load_then_filter :
  Scenarios.filterPaths (Scenarios.load (Fixtures.controller false))
    [".env"; "a.ts"; "../outside"]%string
  = ["a.ts"; "../outside"]%string.
Proof. vm_compute. reflexivity. Qed.

End ClineIgnoreMore.

(** ** The marketplace card *)

Module McpMarketplaceCardFacts.
Import McpMarketplaceCard.

Implicit Types (props : McpMarketplaceCardProps) (isDownloading : bool)
  (evs : list (McpMarketplaceCardProps * Event)).

(** X20.  A click on the install button posts the download request exactly
    when the button is enabled; the card is then downloading and the button
    disabled.  A click on a disabled button posts nothing and changes
    nothing. *)
Theorem onInstallClick_posts_iff_enabled props isDownloading :
  (buttonDisabled props isDownloading = false →
     onInstallClick props isDownloading
       = (true, [ {| type := "downloadMcp"; messageMcpId := mcpId (item props) |} ])
     ∧ buttonDisabled props (onInstallClick props isDownloading).1 = true)
  ∧ (buttonDisabled props isDownloading = true →
     onInstallClick props isDownloading = (isDownloading, [])).
Proof.
  unfold onInstallClick, buttonDisabled.
  destruct (isInstalled props), isDownloading; simpl; split; try done.
Qed.

(** X23.  The button reads "Install" exactly when it is enabled, and
    "Installed" exactly when the server is installed, downloading or not. *)
Theorem buttonLabel_matches_state props isDownloading :
  (buttonLabel props isDownloading = "Install"%string
     ↔ buttonDisabled props isDownloading = false)
  ∧ (buttonLabel props isDownloading = "Installed"%string
     ↔ isInstalled props = true).
Proof.
  unfold buttonLabel, buttonDisabled.
  destruct (isInstalled props), isDownloading; simpl; split; split; done.
Qed.

Lemma step_posts props (ev : Event) isDownloading :
  (length (step props ev isDownloading).2
   + (if (step props ev isDownloading).1 then 0 else 1)
   ≤ (if isDownloadDetails (props, ev) then 1 else 0)
     + (if isDownloading then 0 else 1))%nat.
Proof.
  destruct ev as [| | messageType]; simpl.
  - unfold onInstallClick.
    destruct (isInstalled props), isDownloading; simpl; lia.
  - destruct isDownloading; simpl; lia.
  - unfold isDownloadDetails, handleMessage; simpl.
    case_bool_decide; destruct isDownloading; simpl; lia.
Qed.

Lemma run_cons props (ev : Event) evs isDownloading :
  run ((props, ev) :: evs) isDownloading
    = ((run evs (step props ev isDownloading).1).1,
       (step props ev isDownloading).2 ++ (run evs (step props ev isDownloading).1).2).
Proof.
  cbn [run]. destruct (step props ev isDownloading) as [d posted]; cbn [fst snd].
  by destruct (run evs d).
Qed.

(** X21.  Over any sequence of events, the download requests posted number
    at most one more than the "mcpDownloadDetails" messages received, and
    at most as many when a download is under way at the start. *)
Theorem run_posts_bounded evs isDownloading :
  (length (run evs isDownloading).2
   ≤ length (List.filter isDownloadDetails evs)
     + (if isDownloading then 0 else 1))%nat.
Proof.
  assert (∀ d, length (run evs d).2 + (if (run evs d).1 then 0 else 1)
               ≤ length (List.filter isDownloadDetails evs)
                 + (if d then 0 else 1))%nat as H.
  { induction evs as [| [props ev] evs IH]; intros d.
    - simpl. lia.
    - rewrite run_cons; cbn [fst snd]. rewrite length_app.
      pose proof (IH (step props ev d).1) as IH'.
      pose proof (step_posts props ev d) as Hs.
      cbn [List.filter].
      destruct (isDownloadDetails (props, ev)); cbn [length]; lia. }
  specialize (H isDownloading). lia.
Qed.

(** X22.  Every message posted is a download request for the item of a
    card whose install button was clicked while its server was not
    installed. *)
Theorem run_posts_only_downloads evs isDownloading (m : WebviewMessage) :
  m ∈ (run evs isDownloading).2 →
  ∃ props, (props, InstallClick) ∈ evs
         ∧ isInstalled props = false
         ∧ m = {| type := "downloadMcp"; messageMcpId := mcpId (item props) |}.
Proof.
  revert isDownloading. induction evs as [| [props ev] evs IH]; intros d.
  - simpl. intros H. by apply elem_of_nil in H.
  - rewrite run_cons; cbn [fst snd]. rewrite elem_of_app. intros [Hm | Hm].
    + destruct ev as [| | messageType]; simpl in Hm;
        [| by apply elem_of_nil in Hm | by apply elem_of_nil in Hm].
      unfold onInstallClick in Hm.
      destruct (isInstalled props) eqn:Hi; simpl in Hm;
        [by apply elem_of_nil in Hm |].
      destruct d; simpl in Hm; [by apply elem_of_nil in Hm |].
      apply list_elem_of_singleton in Hm as ->.
      exists props. repeat split; [apply list_elem_of_here | done].
    + destruct (IH _ Hm) as (props' & Hin & Hi & ->).
      exists props'. repeat split; [by apply list_elem_of_further | done].
Qed.

Lemma onInstallClick_posts_iff_enabled_witness :
  onInstallClick Scenarios.card false
    = (true, [ {| type := "downloadMcp"; messageMcpId := "github" |} ])
  ∧ buttonDisabled Scenarios.card (onInstallClick Scenarios.card false).1 = true.
Proof.
  exact (proj1 (onInstallClick_posts_iff_enabled Scenarios.card false) eq_refl).
Defined.

Lemma run_posts_only_downloads_witness :
  ∃ props,
    (props, InstallClick)
      ∈ [(Scenarios.card, InstallClick); (Scenarios.card, InstallClick)]
    ∧ isInstalled props = false
    ∧ {| type := "downloadMcp"; messageMcpId := "github" |}
      = {| type := "downloadMcp"; messageMcpId := mcpId (item props) |}.
Proof.
  refine (run_posts_only_downloads
            [(Scenarios.card, InstallClick); (Scenarios.card, InstallClick)] false
            {| type := "downloadMcp"; messageMcpId := "github" |} _).
  vm_compute. apply list_elem_of_here.
Defined.

(** Two clicks in a row start one download; after the extension has
    answered, a third click starts another; an installed card starts
    none. *)
Example double_click_posts_once :
  run [(Scenarios.card, InstallClick); (Scenarios.card, InstallClick);
       (Scenarios.card, WindowMessage "mcpDownloadDetails");
       (Scenarios.card, InstallClick);
       (Scenarios.installedCard, InstallClick)] false
  = (true, [ {| type := "downloadMcp"; messageMcpId := "github" |};
             {| type := "downloadMcp"; messageMcpId := "github" |} ]).
Proof. vm_compute. reflexivity. Qed.

End McpMarketplaceCardFacts.
